(** * vim-ultest: the orchestration core (Handler)

    A shallow embedding of [rplugin/python3/ultest/handler/__init__.py] and
    [rplugin/python3/ultest/models/test.py].

    Python objects are mutable and shared: the [Test] objects held in
    [Handler._stored_tests] are the very objects handed to the process
    manager, captured by coroutines and mutated by [_register_started] and
    by the reconciliation loop.  The embedding therefore keeps an explicit
    object store ([heap]) and lets every container hold references ([loc]).

    The single-threaded event loop is modelled by explicit state passing.
    A coroutine runs atomically between two [await]s, so each coroutine of
    the handler ([run], [runner]) is one function that receives the value
    its only [await] produced. *)

From stdpp Require Import gmap strings list fin_maps pretty.

Set Warnings "-clear-no-such-hyp".

Open Scope string_scope.
Open Scope list_scope.
Open Scope Z_scope.

(** ** Data model *)

(** [models/test.py]: the [Test] dataclass. *)
Module Test.
Record t := mk {
  id : string;
  name : string;
  file : string;
  line : Z;
  col : Z;
  running : Z;
}.
End Test.

(** Modelled from the spec: the [Result] dataclass ([models/result.py] is
    not part of the sources); the handler builds it with the keywords
    [id], [file], [code], [output] and reads exactly these attributes. *)
Module Result.
Record t := mk {
  id : string;
  file : string;
  code : Z;
  output : string;
}.
End Result.

#[global] Instance Test_eq_dec : EqDecision Test.t.
Proof. solve_decision. Defined.

#[global] Instance Result_eq_dec : EqDecision Result.t.
Proof. solve_decision. Defined.

(** A reference to a [Test] object. *)
Abbreviation loc := nat.

(** [test.running = v] *)
Definition set_running (v : Z) (t : Test.t) : Test.t :=
  Test.mk (Test.id t) (Test.name t) (Test.file t) (Test.line t) (Test.col t) v.

(** ** Loosely typed payloads: building a [Test] from the keywords of a dict *)

Inductive Value :=
| VStr (s : string)
| VInt (z : Z).

Definition as_str (v : Value) : option string :=
  match v with VStr s => Some s | VInt _ => None end.

Definition as_int (v : Value) : option Z :=
  match v with VInt z => Some z | VStr _ => None end.

(** The dataclass constructor called with keyword arguments: it raises
    [TypeError] (here [None]) on a missing or an unexpected keyword.  The
    record of the model is typed, so a payload whose values do not have the
    annotated types is outside it and is rejected as well. *)
Definition Test_of_kwargs (d : gmap string Value) : option Test.t :=
  if bool_decide (size d = 6%nat) then
    i ← d !! "id" ≫= as_str;
    n ← d !! "name" ≫= as_str;
    f ← d !! "file" ≫= as_str;
    l ← d !! "line" ≫= as_int;
    c ← d !! "col" ≫= as_int;
    r ← d !! "running" ≫= as_int;
    Some (Test.mk i n f l c r)
  else None.

(** Python truthiness of an optional dict argument. *)
Definition truthy_dict (d : option (gmap string Value)) : bool :=
  match d with
  | None => false
  | Some m => negb (bool_decide (size m = 0%nat))
  end.

(** ** Insertion-ordered dictionaries keyed by test id

    [recorded_tests] is a Python [dict]: keys are unique, a second
    assignment to a key replaces the value in place, and iteration follows
    insertion order. *)

Definition Dict := list (string * loc).

Fixpoint dict_set (k : string) (v : loc) (d : Dict) : Dict :=
  match d with
  | [] => [(k, v)]
  | (k', v') :: d' =>
      if decide (k' = k) then (k, v) :: d' else (k', v') :: dict_set k v d'
  end.

Fixpoint dict_get (k : string) (d : Dict) : option loc :=
  match d with
  | [] => None
  | (k', v') :: d' => if decide (k' = k) then Some v' else dict_get k d'
  end.

(** [d.pop(k)]: the dictionary without the entry of [k]. *)
Fixpoint dict_pop (k : string) (d : Dict) : Dict :=
  match d with
  | [] => []
  | (k', v') :: d' => if decide (k' = k) then d' else (k', v') :: dict_pop k d'
  end.

(** ** Collaborators *)

(** Modelled from the spec: the Result Cache ([handler/results.py] is not
    part of the sources), "a per-file mapping from test identity to last
    known result" with [add(file, result)] and [get(file, id) -> Result?]. *)
Module ResultStore.
Abbreviation t := (gmap string (gmap string Result.t)).

Definition add (file_name : string) (result : Result.t) (s : t) : t :=
  <[file_name := <[Result.id result := result]> (default ∅ (s !! file_name))]> s.

Definition get (file_name test_id : string) (s : t) : option Result.t :=
  s !! file_name ≫= (.!! test_id).
End ResultStore.

(** Modelled from the spec: the part of the Run Engine
    ([handler/processes.py] is not part of the sources) that the handler
    writes to: the tests registered as started and the live-output buffer
    per test id.  Its [is_running] answer depends on operating-system
    processes and is supplied by the environment where the handler asks
    for it. *)
Module ProcessManager.
Record t := mk {
  registered : list loc;
  external_outputs : gmap string string;
}.

Definition register_new_test (test : loc) (pm : t) : t :=
  mk (registered pm ++ [test]) (external_outputs pm).

Definition register_external_output (test_id out : string) (pm : t) : t :=
  mk (registered pm) (<[test_id := out]> (external_outputs pm)).

Definition clear_external_output (test_id : string) (pm : t) : t :=
  mk (registered pm) (delete test_id (external_outputs pm)).
End ProcessManager.

(** What [ultest#adapter#get_patterns] answers through [sync_call]: the
    call raises, or returns a dictionary of patterns (falsy when empty). *)
Inductive PatternsAnswer :=
| PatternsRaise
| PatternsReturn (patterns : list (string * list string)).

(** The answers of the editor and of the file system at the time of a call
    into the handler. *)
Record Editor := {
  isfile : string -> bool;                 (* os.path.isfile *)
  get_patterns : string -> PatternsAnswer; (* ultest#adapter#get_patterns *)
  project_root : option string;            (* get(g:, "test#project_root") or None *)
  build_cmd : Test.t -> list string;       (* ultest#adapter#build_cmd *)
  expand_percent : string;                 (* expand("%") *)
  getbufinfo_lnum : string -> Z;           (* getbufinfo(file)[0].get("lnum") *)
}.

(** ** Notifications, coroutines and scheduled callbacks *)

(** The calls the handler makes into the editor. *)
Inductive Event :=
| ProcessStart (test : Test.t)                       (* ultest#process#start *)
| ProcessExit (test : Test.t) (result : Result.t)    (* ultest#process#exit *)
| ProcessMove (test : Test.t)                        (* ultest#process#move *)
| ProcessReplace (test : Test.t) (result : Result.t) (* ultest#process#replace *)
| ProcessNew (test : Test.t)                         (* ultest#process#new *)
| ProcessClear (test : Test.t)                       (* ultest#process#clear *)
| StoreSortedIds (file_name : string) (ids : list string)
| Setbufvar (file_name : string) (var : string)      (* value: empty container *)
| PositionsUpdate                                    (* doau User UltestPositionsUpdate *)
| OutputOpen (result : Result.t).                    (* ultest#output#open *)

(** The closures [run_after_update] of [run_all] and [run_nearest]. *)
Inductive Callback :=
| RunAllAfterUpdate (file_name : string)
| RunNearestAfterUpdate (line : Z) (file_name : string).

(** The coroutines handed to [VimClient.launch]. *)
Inductive Coroutine :=
| CoRun (cmd : list string) (test : loc) (root : option string)
| CoRunner (file_name : string) (vim_patterns : list (string * list string))
           (recorded_tests : Dict) (callback : option Callback).

(** The calls deferred with [VimClient.schedule]. *)
Inductive Scheduled :=
| SchPresentOutput (result : Result.t)
| SchRunAll (file_name : string) (update_empty : bool)
| SchRunNearest (line : Z) (file_name : string) (update_empty : bool).

(** ** Handler state

    Modelled from the spec: the editor client ([vim_client.py] is not part
    of the sources).  [call] and [command] notify the editor and return
    nothing, [launch] starts a coroutine as a cancellable task under a job
    id, [schedule] defers a call to a later turn of the loop, [stop]
    cancels the tasks under a job id; the model logs each use.

    [trace] logs every notification together with the value
    [_stored_tests] had when the call was made (a history variable: it
    lets ordering properties of commits and notifications be stated).
    [launched], [scheduled] and [stopped] log the uses of [launch],
    [schedule] and [stop]. *)
Record State := mkState {
  stored_tests : gmap string (list loc);
  heap : list Test.t;
  results : ResultStore.t;
  process_manager : ProcessManager.t;
  show_on_run : Z;
  trace : list (Event * gmap string (list loc));
  launched : list (string * Coroutine);
  scheduled : list Scheduled;
  stopped : list string;
}.

Definition events (st : State) : list Event := (trace st).*1.

Definition emit (e : Event) (st : State) : State :=
  mkState (stored_tests st) (heap st) (results st) (process_manager st)
          (show_on_run st) (trace st ++ [(e, stored_tests st)])
          (launched st) (scheduled st) (stopped st).

Definition launch (job : string) (c : Coroutine) (st : State) : State :=
  mkState (stored_tests st) (heap st) (results st) (process_manager st)
          (show_on_run st) (trace st) (launched st ++ [(job, c)])
          (scheduled st) (stopped st).

Definition schedule (s : Scheduled) (st : State) : State :=
  mkState (stored_tests st) (heap st) (results st) (process_manager st)
          (show_on_run st) (trace st) (launched st) (scheduled st ++ [s])
          (stopped st).

Definition stop (job : string) (st : State) : State :=
  mkState (stored_tests st) (heap st) (results st) (process_manager st)
          (show_on_run st) (trace st) (launched st) (scheduled st)
          (stopped st ++ [job]).

Definition set_heap (h : list Test.t) (st : State) : State :=
  mkState (stored_tests st) h (results st) (process_manager st)
          (show_on_run st) (trace st) (launched st) (scheduled st) (stopped st).

Definition set_stored (file_name : string) (tests : list loc) (st : State) : State :=
  mkState (<[file_name := tests]> (stored_tests st)) (heap st) (results st)
          (process_manager st) (show_on_run st) (trace st) (launched st)
          (scheduled st) (stopped st).

Definition set_results (r : ResultStore.t) (st : State) : State :=
  mkState (stored_tests st) (heap st) r (process_manager st)
          (show_on_run st) (trace st) (launched st) (scheduled st) (stopped st).

Definition set_process_manager (pm : ProcessManager.t) (st : State) : State :=
  mkState (stored_tests st) (heap st) (results st) pm
          (show_on_run st) (trace st) (launched st) (scheduled st) (stopped st).

(** Assignment to an attribute of the object at [l]. *)
Definition store (l : loc) (t : Test.t) (st : State) : State :=
  set_heap (<[l := t]> (heap st)) st.

(** A new object. *)
Definition alloc (t : Test.t) (st : State) : loc * State :=
  (length (heap st), set_heap (heap st ++ [t]) st).

(** New objects, in order; their references are consecutive. *)
Definition alloc_all (tests : list Test.t) (st : State) : list loc * State :=
  (seq (length (heap st)) (length tests), set_heap (heap st ++ tests) st).

(** [self._stored_tests.get(file_name, [])] *)
Definition stored_get (file_name : string) (st : State) : list loc :=
  default [] (stored_tests st !! file_name).

(** The objects behind a list of references, as they are now.  References
    held by the handler always point to allocated objects; a dangling one
    (impossible in Python) is skipped. *)
Definition objects (h : list Test.t) (locs : list loc) : list (loc * Test.t) :=
  omap (λ l, pair l <$> h !! l) locs.

(** The snapshot of a file, by value. *)
Definition snapshot (file_name : string) (st : State) : list Test.t :=
  (objects (heap st) (stored_get file_name st)).*2.

(** ** The handler *)

Section Handler.

(** The Locator's synchronous, pure lookup [get_nearest_from(line, tests,
    strict)] ([handler/finder.py] is not part of the sources).  It is
    given the objects of the list and returns one of them or [None]; the
    element returned is identified by its position in the list. *)
Variable get_nearest_from : Z -> list Test.t -> bool -> option nat.

(** [_register_started] *)
Definition register_started (test : loc) (st : State) : State :=
  match heap st !! test with
  | None => st
  | Some t =>
      let t' := set_running 1 t in
      let st1 := store test t' st in
      let st2 := set_process_manager
                   (ProcessManager.register_new_test test (process_manager st1)) st1 in
      emit (ProcessStart t') st2
  end.

(** [_register_result]; [test] is the object as it is at the call. *)
Definition register_result (test : Test.t) (result : Result.t) (st : State) : State :=
  let st1 := set_results (ResultStore.add (Result.file result) result (results st)) st in
  let st2 := emit (ProcessExit test result) st1 in
  if bool_decide (show_on_run st2 ≠ 0) && negb (bool_decide (Result.output result = ""))
  then schedule (SchPresentOutput result) st2
  else st2.

(** [external_start]; [None] when building the [Test] raises. *)
Definition external_start (test_dict : gmap string Value) (stdout : string)
           (st : State) : option State :=
  t ← Test_of_kwargs test_dict;
  let '(test, st1) := alloc t st in
  let st2 := register_started test st1 in
  Some (if bool_decide (stdout = "") then st2
        else set_process_manager
               (ProcessManager.register_external_output (Test.id t) stdout
                  (process_manager st2)) st2).

(** [external_result]; [None] when building the [Test] raises. *)
Definition external_result (test_dict : gmap string Value) (exit_code : Z)
           (stdout : string) (st : State) : option State :=
  t ← Test_of_kwargs test_dict;
  let result := Result.mk (Test.id t) (Test.file t) exit_code stdout in
  let st1 := set_process_manager
               (ProcessManager.clear_external_output (Test.id t) (process_manager st)) st in
  Some (register_result t result st1).

(** One iteration of the loop of [_run_tests]. *)
Definition run_test (ed : Editor) (st : State) (test : loc) : State :=
  let st1 := register_started test st in
  match heap st1 !! test with
  | None => st1
  | Some t => launch (Test.id t) (CoRun (build_cmd ed t) test (project_root ed)) st1
  end.

(** [_run_tests] *)
Definition run_tests (ed : Editor) (tests : list loc) (st : State) : State :=
  foldl (run_test ed) st tests.

(** The coroutine [run] of [_run_tests], resumed with the [Result] that
    [ProcessManager.run] produced. *)
Definition run (test : loc) (result : Result.t) (st : State) : State :=
  match heap st !! test with
  | None => st
  | Some t => register_result t result st
  end.

(** [get_nearest_test] *)
Definition get_nearest_test (line : Z) (file_name : string) (strict : bool)
           (st : State) : option (loc * Test.t) :=
  let tests := objects (heap st) (stored_get file_name st) in
  i ← get_nearest_from line tests.*2 strict;
  tests !! i.

(** [_present_output] *)
Definition present_output (ed : Editor) (result : Result.t) (st : State) : State :=
  if bool_decide (Result.code result ≠ 0)
     && bool_decide (expand_percent ed = Result.file result)
  then
    let line := getbufinfo_lnum ed (Result.file result) in
    match get_nearest_test line (Result.file result) false st with
    | Some (_, nearest) =>
        if bool_decide (Test.id nearest = Result.id result)
        then emit (OutputOpen result) st
        else st
    | None => st
    end
  else st.

(** [recorded_tests = {test.id: test for test in self._stored_tests.get(file_name, [])}] *)
Definition recorded_tests (file_name : string) (st : State) : Dict :=
  foldl (λ d '(l, t), dict_set (Test.id t) l d) []
        (objects (heap st) (stored_get file_name st)).

(** [update_positions], up to the launch of [runner]. *)
Definition update_positions (ed : Editor) (file_name : string)
           (callback : option Callback) (st : State) : State :=
  if negb (isfile ed file_name) then st
  else
    match get_patterns ed file_name with
    | PatternsRaise => st
    | PatternsReturn [] => st
    | PatternsReturn vim_patterns =>
        let recorded := recorded_tests file_name st in
        let st1 :=
          match recorded with
          | [] =>
              emit (Setbufvar file_name "ultest_sorted_tests")
                (emit (Setbufvar file_name "ultest_tests")
                   (emit (Setbufvar file_name "ultest_results") st))
          | _ => st
          end in
        launch "update_positions" (CoRunner file_name vim_patterns recorded callback) st1
    end.

(** [run_after_update()] *)
Definition run_callback (cb : Callback) (st : State) : State :=
  match cb with
  | RunAllAfterUpdate file_name => schedule (SchRunAll file_name false) st
  | RunNearestAfterUpdate line file_name => schedule (SchRunNearest line file_name false) st
  end.

(** The body of the loop [for test in tests] of [runner]. *)
Definition runner_visit (is_running : string -> Z) (acc : Dict * State) (test : loc)
  : Dict * State :=
  let '(recorded_tests, st) := acc in
  match heap st !! test with
  | None => acc
  | Some t =>
      match dict_get (Test.id t) recorded_tests with
      | Some rl =>
          let recorded_tests' := dict_pop (Test.id t) recorded_tests in
          match heap st !! rl with
          | Some recorded =>
              if bool_decide (Test.line recorded ≠ Test.line t) then
                let t' := set_running (is_running (Test.id t)) t in
                (recorded_tests', emit (ProcessMove t') (store test t' st))
              else (recorded_tests', st)
          | None => (recorded_tests', st)
          end
      | None =>
          match ResultStore.get (Test.file t) (Test.id t) (results st) with
          | Some existing_result => (recorded_tests, emit (ProcessReplace t existing_result) st)
          | None => (recorded_tests, emit (ProcessNew t) st)
          end
      end
  end.

(** [for removed in recorded_tests.values()] *)
Definition runner_clear (st : State) (entry : string * loc) : State :=
  match heap st !! entry.2 with
  | Some removed => emit (ProcessClear removed) st
  | None => st
  end.

(** The coroutine [runner] of [update_positions], resumed with the list
    [find_all] produced; [is_running] is the Run Engine's answer during
    this pass. *)
Definition runner (file_name : string) (recorded_tests : Dict)
           (callback : option Callback)
           (found : list Test.t) (is_running : string -> Z) (st : State) : State :=
  let '(tests, st1) := alloc_all found st in
  let st2 := set_stored file_name tests st1 in
  let st3 := emit (StoreSortedIds file_name (Test.id <$> found)) st2 in
  let '(remaining, st4) := foldl (runner_visit is_running) (recorded_tests, st3) tests in
  let st5 := foldl runner_clear st4 remaining in
  let st6 := emit PositionsUpdate st5 in
  match callback with
  | Some cb => run_callback cb st6
  | None => st6
  end.

(** [run_all] *)
Definition run_all (ed : Editor) (file_name : string) (update_empty : bool)
           (st : State) : State :=
  let tests := stored_get file_name st in
  let st1 :=
    if bool_decide (tests = []) && update_empty
    then update_positions ed file_name (Some (RunAllAfterUpdate file_name)) st
    else st in
  if bool_decide (tests = []) then st1 else run_tests ed tests st1.

(** [run_nearest] *)
Definition run_nearest (ed : Editor) (line : Z) (file_name : string)
           (update_empty : bool) (st : State) : State :=
  let tests := stored_get file_name st in
  if bool_decide (tests = []) && update_empty
  then update_positions ed file_name (Some (RunNearestAfterUpdate line file_name)) st
  else
    let objs := objects (heap st) tests in
    match get_nearest_from line objs.*2 false ≫= (objs !!.) with
    | Some (test, _) => run_tests ed [test] st
    | None => st
    end.

(** [run_single] *)
Definition run_single (ed : Editor) (test_id file_name : string) (st : State) : State :=
  let tests := objects (heap st) (stored_get file_name st) in
  run_tests ed (filter (λ p, Test.id p.2 = test_id) tests).*1 st.

(** [stop_test] *)
Definition stop_test (test_dict : option (gmap string Value)) (st : State)
  : option State :=
  if negb (truthy_dict test_dict) then Some st
  else
    t ← test_dict ≫= Test_of_kwargs;
    let st1 := stop (Test.id t) st in
    Some (emit (ProcessMove (set_running 0 t)) st1).

(** A callback deferred with [schedule], when the loop runs it. *)
Definition run_scheduled (ed : Editor) (s : Scheduled) (st : State) : State :=
  match s with
  | SchPresentOutput result => present_output ed result st
  | SchRunAll file_name update_empty => run_all ed file_name update_empty st
  | SchRunNearest line file_name update_empty =>
      run_nearest ed line file_name update_empty st
  end.

(** A launched coroutine, resumed with what it awaited. *)
Inductive Awaited :=
| Found (tests : list Test.t) (is_running : string -> Z)
| Finished (result : Result.t).

Definition resume (c : Coroutine) (a : Awaited) (st : State) : State :=
  match c, a with
  | CoRun _ test _, Finished result => run test result st
  | CoRunner file_name _ recorded callback, Found tests is_running =>
      runner file_name recorded callback tests is_running st
  | _, _ => st
  end.

End Handler.

(** ** Vocabulary of the properties *)

(** What a state logged after an earlier one. *)
Definition emitted_since (st st' : State) : list Event :=
  drop (length (events st)) (events st').

Definition logged_since (st st' : State) : list (Event * gmap string (list loc)) :=
  drop (length (trace st)) (trace st').

Definition launched_since (st st' : State) : list (string * Coroutine) :=
  drop (length (launched st)) (launched st').

Definition scheduled_since (st st' : State) : list Scheduled :=
  drop (length (scheduled st)) (scheduled st').

Definition reported_removed (i : string) (e : Event) : bool :=
  match e with ProcessClear t => bool_decide (Test.id t = i) | _ => false end.

Definition reported_new (i : string) (e : Event) : bool :=
  match e with ProcessNew t => bool_decide (Test.id t = i) | _ => false end.

Definition reported_replaced (i : string) (e : Event) : bool :=
  match e with ProcessReplace t _ => bool_decide (Test.id t = i) | _ => false end.

Definition reported_moved (i : string) (e : Event) : bool :=
  match e with ProcessMove t => bool_decide (Test.id t = i) | _ => false end.

(** How many of the events satisfy [p]. *)
Definition times (p : Event -> bool) (evs : list Event) : nat :=
  length (filter (λ e, p e = true) evs).

(** The per-test notifications of a reconciliation pass. *)
Definition per_test (e : Event) : bool :=
  match e with
  | ProcessMove _ | ProcessReplace _ _ | ProcessNew _ | ProcessClear _ => true
  | _ => false
  end.

Definition is_runner (c : string * Coroutine) : bool :=
  match c.2 with CoRunner _ _ _ _ => true | CoRun _ _ _ => false end.

(** One reconciliation pass: [update_positions], then the coroutine it
    launched, if it launched one, resumed at once with the tests that
    [find_all] produced. *)
Definition reconcile (ed : Editor) (file_name : string) (callback : option Callback)
           (found : list Test.t) (is_running : string -> Z) (st : State) : State :=
  let st1 := update_positions ed file_name callback st in
  foldl (λ s c, resume c.2 (Found found is_running) s) st1 (launched_since st st1).

(** ** Concrete states and environments *)

(** A handler right after construction, with [g:ultest_output_on_run]
    at its default. *)
Definition init : State :=
  mkState ∅ [] ∅ (ProcessManager.mk [] ∅) 1 [] [] [] [].

(** An editor in which no file exists on disk. *)
Definition no_files : Editor :=
  {| isfile := λ _, false;
     get_patterns := λ _, PatternsReturn [("test", ["def test"])];
     project_root := None;
     build_cmd := λ t, ["run"; Test.name t];
     expand_percent := "f";
     getbufinfo_lnum := λ _, 1 |}.

(** An editor in which every file exists and has detection rules. *)
Definition all_files : Editor :=
  {| isfile := λ _, true;
     get_patterns := λ _, PatternsReturn [("test", ["def test"])];
     project_root := None;
     build_cmd := λ t, ["run"; Test.name t];
     expand_percent := "f";
     getbufinfo_lnum := λ _, 1 |}.

(** A finder that returns the last test at or before the line, or the
    test exactly at the line in strict mode. *)
Fixpoint nearest_index (line : Z) (tests : list Test.t) (strict : bool) (i : nat)
  : option nat :=
  match tests with
  | [] => None
  | t :: rest =>
      match nearest_index line rest strict (S i) with
      | Some j => Some j
      | None =>
          if strict then (if bool_decide (Test.line t = line) then Some i else None)
          else (if bool_decide (Test.line t ≤ line) then Some i else None)
      end
  end.

Definition simple_finder (line : Z) (tests : list Test.t) (strict : bool) : option nat :=
  nearest_index line tests strict 0.

(** The payload of the external round trip. *)
Definition payload_x : gmap string Value :=
  {[ "id" := VStr "x"; "file" := VStr "f"; "name" := VStr "X";
     "line" := VInt 1; "col" := VInt 1; "running" := VInt 1 ]}.

Definition t1_10 : Test.t := Test.mk "t1" "one" "a_test.go" 10 1 0.
Definition t2_20 : Test.t := Test.mk "t2" "two" "a_test.go" 20 1 0.
Definition t1_15 : Test.t := Test.mk "t1" "one" "a_test.go" 15 1 0.
Definition t3_20 : Test.t := Test.mk "t3" "three" "a_test.go" 20 1 0.

(** The handler after [a_test.go] was discovered with [t1@10, t2@20]. *)
Definition cached_a : State :=
  reconcile all_files "a_test.go" None [t1_10; t2_20] (λ _, 0) init.

(** The external round trip: [external_start] then [external_result]
    with the same payload, exit code 1 and output "fail". *)
Definition test_x : Test.t := Test.mk "x" "X" "f" 1 1 1.
Definition result_x : Result.t := Result.mk "x" "f" 1 "fail".

Definition round_trip (st : State) : option State :=
  external_start payload_x "" st ≫= external_result payload_x 1 "fail".

(** ** The reconciliation pass, by value

    What one pass of [runner] reports and leaves behind, as functions of
    the objects allocated before the pass ([h]), the Result Cache ([rs]),
    the Run Engine's answers ([is_running]) and the recorded dictionary.
    The lemma [runner_by_value] relates them to [runner]. *)

(** Several notifications at once, all made under the same snapshot. *)
Definition emit_all (evs : list Event) (st : State) : State :=
  mkState (stored_tests st) (heap st) (results st) (process_manager st)
          (show_on_run st)
          (trace st ++ ((λ e, (e, stored_tests st)) <$> evs))
          (launched st) (scheduled st) (stopped st).

(** Several deferred calls at once. *)
Definition schedule_all (ss : list Scheduled) (st : State) : State :=
  mkState (stored_tests st) (heap st) (results st) (process_manager st)
          (show_on_run st) (trace st) (launched st) (scheduled st ++ ss)
          (stopped st).

Definition visit_outcome (h : list Test.t) (rs : ResultStore.t)
           (is_running : string -> Z) (d : Dict) (t : Test.t)
  : Dict * list Event * Test.t :=
  match dict_get (Test.id t) d with
  | Some rl =>
      match h !! rl with
      | Some recorded =>
          if bool_decide (Test.line recorded ≠ Test.line t) then
            let t' := set_running (is_running (Test.id t)) t in
            (dict_pop (Test.id t) d, [ProcessMove t'], t')
          else (dict_pop (Test.id t) d, [], t)
      | None => (dict_pop (Test.id t) d, [], t)
      end
  | None =>
      match ResultStore.get (Test.file t) (Test.id t) rs with
      | Some existing_result => (d, [ProcessReplace t existing_result], t)
      | None => (d, [ProcessNew t], t)
      end
  end.

Fixpoint diff_loop (h : list Test.t) (rs : ResultStore.t)
         (is_running : string -> Z) (d : Dict) (found : list Test.t)
  : Dict * list Event * list Test.t :=
  match found with
  | [] => (d, [], [])
  | t :: rest =>
      let '(d1, evs1, t') := visit_outcome h rs is_running d t in
      let '(d2, evs2, rest') := diff_loop h rs is_running d1 rest in
      (d2, evs1 ++ evs2, t' :: rest')
  end.

Definition clear_events (h : list Test.t) (d : Dict) : list Event :=
  omap (λ p : string * loc, ProcessClear <$> h !! p.2) d.

Definition callback_schedules (callback : option Callback) : list Scheduled :=
  match callback with
  | Some (RunAllAfterUpdate file_name) => [SchRunAll file_name false]
  | Some (RunNearestAfterUpdate line file_name) => [SchRunNearest line file_name false]
  | None => []
  end.

(** The recorded dictionary refers to objects allocated in [h]. *)
Definition dict_allocated (h : list Test.t) (d : Dict) : Prop :=
  Forall (λ p : string * loc, (p.2 < length h)%nat) d.

(** The recorded dictionary was built from the objects [prev]: keys are
    unique and every entry refers to an object of [prev] under its id. *)
Definition dict_of (h : list Test.t) (prev : list Test.t) (d : Dict) : Prop :=
  NoDup d.*1
  ∧ Forall (λ p : string * loc, ∃ t, h !! p.2 = Some t ∧ Test.id t = p.1 ∧ t ∈ prev) d
  ∧ ∀ t, t ∈ prev → Test.id t ∈ d.*1.

(** The id of the test a notification is about. *)
Definition event_id (e : Event) : option string :=
  match e with
  | ProcessStart t | ProcessExit t _ | ProcessMove t | ProcessReplace t _
  | ProcessNew t | ProcessClear t => Some (Test.id t)
  | _ => None
  end.

(** [p] only holds of notifications about the test [i]. *)
Definition about (p : Event -> bool) (i : string) : Prop :=
  ∀ e, p e = true → event_id e = Some i.

(** The notifications the loop over the discovered tests can make. *)
Definition loop_event (e : Event) : Prop :=
  match e with
  | ProcessMove _ | ProcessReplace _ _ | ProcessNew _ => True
  | _ => False
  end.

(** The detection rules [update_positions] gets for a file, if it gets
    any: the file is on disk and the pattern lookup returns a non-empty
    answer. *)
Definition available_patterns (ed : Editor) (file_name : string)
  : option (list (string * list string)) :=
  if isfile ed file_name then
    match get_patterns ed file_name with
    | PatternsReturn (p :: ps) => Some (p :: ps)
    | _ => None
    end
  else None.

(** A failed run of [t1], a failed run of [t2], and an earlier result of
    [t3]. *)
Definition failed_t1 : Result.t := Result.mk "t1" "a_test.go" 1 "FAIL one".
Definition failed_t2 : Result.t := Result.mk "t2" "a_test.go" 1 "FAIL two".
Definition earlier_t3 : Result.t := Result.mk "t3" "a_test.go" 0 "ok".

(** [cached_a] once a run of [t3] has completed (before [t3] vanished). *)
Definition cached_a_t3 : State := register_result t3_20 earlier_t3 cached_a.

(** [cached_a] after the re-scan that finds [t1@15, t3@20]. *)
Definition rescanned_a : State :=
  reconcile all_files "a_test.go" None [t1_15; t3_20] (λ _, 0) cached_a.

(** The editor showing [a_test.go] with the cursor on line 12. *)
Definition cursor_a_12 : Editor :=
  {| isfile := λ _, true;
     get_patterns := λ _, PatternsReturn [("test", ["def test"])];
     project_root := None;
     build_cmd := λ t, ["run"; Test.name t];
     expand_percent := "a_test.go";
     getbufinfo_lnum := λ _, 12 |}.

(** ** The rest of the handler and of the [Test] model *)

(** [Test.dict]: [asdict(self)]. *)
Definition Test_dict (t : Test.t) : gmap string Value :=
  {[ "id" := VStr (Test.id t); "name" := VStr (Test.name t);
     "file" := VStr (Test.file t); "line" := VInt (Test.line t);
     "col" := VInt (Test.col t); "running" := VInt (Test.running t) ]}.

(** [get_nearest_test_dict]: [test and test.dict()]. *)
Definition get_nearest_test_dict (get_nearest_from : Z -> list Test.t -> bool -> option nat)
           (line : Z) (file_name : string) (strict : bool) (st : State)
  : option (gmap string Value) :=
  match get_nearest_test get_nearest_from line file_name strict st with
  | Some (_, test) => Some (Test_dict test)
  | None => None
  end.

(** One half of [_prepare_env]: [value] is what the editor variable
    evaluates to (a number), [env] is [os.environ]; [str(value)] is the
    decimal numeral. *)
Definition prepare_var (var : string) (value : Z) (env : gmap string string)
  : gmap string string :=
  if bool_decide (value ≠ 0) then <[var := pretty value]> env
  else if bool_decide (is_Some (env !! var)) then delete var env
  else env.

(** [_prepare_env]: [rows] and [cols] are [g:ultest_output_rows] and
    [g:ultest_output_cols]. *)
Definition prepare_env (rows cols : Z) (env : gmap string string)
  : gmap string string :=
  prepare_var "COLUMNS" cols (prepare_var "ROWS" rows env).

(** ** Dispatch, by value *)

(** The objects behind [locs], as [_register_started] leaves them. *)
Definition started_objects (h : list Test.t) (locs : list loc) : list (loc * Test.t) :=
  (λ p : loc * Test.t, (p.1, set_running 1 p.2)) <$> objects h locs.

(** The object store once the objects at [locs] were marked running. *)
Definition mark_started (locs : list loc) (h : list Test.t) : list Test.t :=
  foldl (λ h l, alter (set_running 1) l h) h locs.

(** The job [_run_tests] launches for a started test. *)
Definition job_of (ed : Editor) (p : loc * Test.t) : string * Coroutine :=
  (Test.id p.2, CoRun (build_cmd ed p.2) p.1 (project_root ed)).

(** The buffer variables [update_positions] resets before it launches
    the discovery task, when nothing is recorded for the file ([prev] is
    the file's snapshot). *)
Definition population_resets (file_name : string) (prev : list Test.t) : list Event :=
  match prev with
  | [] => [Setbufvar file_name "ultest_results"; Setbufvar file_name "ultest_tests";
           Setbufvar file_name "ultest_sorted_tests"]
  | _ :: _ => []
  end.

(** The payload of [t1] at line 10, not running. *)
Definition payload_idle : gmap string Value :=
  {[ "id" := VStr "t1"; "file" := VStr "a_test.go"; "name" := VStr "one";
     "line" := VInt 10; "col" := VInt 1; "running" := VInt 0 ]}.

(** [cached_a] with every test dispatched by [run_all]. *)
Definition running_a : State := run_all all_files "a_test.go" true cached_a.

(** * Properties *)

(** Decide a closed proposition by evaluation. *)
Ltac by_evaluation :=
  match goal with
  | |- ?P => apply (bool_decide_unpack P); vm_compute; exact I
  end.

(** ** Dictionaries *)

Lemma dict_get_Some_elem k v (d : Dict) : dict_get k d = Some v → (k, v) ∈ d.
Proof.
  induction d as [|[k' v'] d IH]; simpl; [done|].
  case_decide; intros Hget.
  - simplify_eq. left.
  - right. auto.
Qed.

Lemma dict_get_None k (d : Dict) : dict_get k d = None ↔ k ∉ d.*1.
Proof.
  induction d as [|[k' v'] d IH]; simpl.
  - split; [intros _; apply not_elem_of_nil | done].
  - rewrite not_elem_of_cons. case_decide; simplify_eq; [naive_solver|].
    rewrite IH. naive_solver.
Qed.

Lemma dict_get_is_Some k (d : Dict) : is_Some (dict_get k d) ↔ k ∈ d.*1.
Proof.
  destruct (dict_get k d) eqn:Hget.
  - split; [intros _ | eauto].
    apply dict_get_Some_elem in Hget.
    apply (list_elem_of_fmap_2 fst) in Hget. done.
  - split; [by intros [? ?]|]. intros Hin. by apply dict_get_None in Hget.
Qed.

Lemma dict_pop_Forall (P : string * loc → Prop) k (d : Dict) :
  Forall P d → Forall P (dict_pop k d).
Proof.
  induction 1 as [|[k' v'] d HP Hd IH]; simpl; [done|].
  case_decide; [done|]. by constructor.
Qed.

Lemma dict_pop_keys k (d : Dict) i : i ∈ (dict_pop k d).*1 → i ∈ d.*1.
Proof.
  induction d as [|[k' v'] d IH]; simpl; [done|].
  case_decide; rewrite ?fmap_cons, !elem_of_cons; simpl; naive_solver.
Qed.

Lemma dict_pop_NoDup k (d : Dict) : NoDup d.*1 → NoDup (dict_pop k d).*1.
Proof.
  induction d as [|[k' v'] d IH]; simpl; [done|].
  rewrite NoDup_cons. intros [Hk Hd].
  case_decide; [done|]. rewrite fmap_cons, NoDup_cons. simpl. split; [|auto].
  intros Hin. by apply dict_pop_keys in Hin.
Qed.

Lemma dict_get_pop_ne k i (d : Dict) :
  k ≠ i → dict_get i (dict_pop k d) = dict_get i d.
Proof.
  intros Hne. induction d as [|[k' v'] d IH]; simpl; [done|].
  repeat (case_decide; simplify_eq; simpl); done.
Qed.

Lemma dict_get_pop_eq k (d : Dict) :
  NoDup d.*1 → dict_get k (dict_pop k d) = None.
Proof.
  induction d as [|[k' v'] d IH]; simpl; [done|].
  rewrite NoDup_cons. intros [Hk Hd].
  case_decide; simplify_eq.
  - by apply dict_get_None.
  - simpl. rewrite decide_False by done. auto.
Qed.

Lemma dict_set_keys k v (d : Dict) i : i ∈ (dict_set k v d).*1 ↔ i = k ∨ i ∈ d.*1.
Proof.
  induction d as [|[k' v'] d IH]; simpl.
  - rewrite list_elem_of_singleton. split; [auto|]. intros [?|Hin]; [done|].
    by apply elem_of_nil in Hin.
  - case_decide; simplify_eq; rewrite !fmap_cons, !elem_of_cons; simpl.
    + naive_solver.
    + rewrite IH. naive_solver.
Qed.

Lemma dict_set_NoDup k v (d : Dict) : NoDup d.*1 → NoDup (dict_set k v d).*1.
Proof.
  induction d as [|[k' v'] d IH]; simpl.
  - intros _. apply NoDup_singleton.
  - rewrite NoDup_cons. intros [Hk Hd].
    case_decide; simplify_eq; rewrite fmap_cons, NoDup_cons; simpl; [done|].
    split; [|auto]. rewrite dict_set_keys. naive_solver.
Qed.

Lemma dict_set_Forall (P : string * loc → Prop) k v (d : Dict) :
  P (k, v) → Forall P d → Forall P (dict_set k v d).
Proof.
  intros HP. induction 1 as [|[k' v'] d HP' Hd IH]; simpl.
  - by constructor.
  - case_decide; by constructor.
Qed.

(** ** State updates *)

Lemma emit_all_app evs1 evs2 st :
  emit_all evs2 (emit_all evs1 st) = emit_all (evs1 ++ evs2) st.
Proof. unfold emit_all. simpl. by rewrite fmap_app, app_assoc. Qed.

Lemma emit_all_nil st : emit_all [] st = st.
Proof. unfold emit_all. destruct st. simpl. by rewrite app_nil_r. Qed.

Lemma schedule_all_nil st : schedule_all [] st = st.
Proof. unfold schedule_all. destruct st. cbn. by rewrite app_nil_r. Qed.

Lemma emit_as_emit_all e st : emit e st = emit_all [e] st.
Proof. reflexivity. Qed.

Lemma set_heap_same st : set_heap (heap st) st = st.
Proof. by destruct st. Qed.

Lemma set_heap_emit_all h evs st :
  set_heap h (emit_all evs st) = emit_all evs (set_heap h st).
Proof. reflexivity. Qed.

Lemma set_heap_set_stored h file_name tests st :
  set_heap h (set_stored file_name tests st) = set_stored file_name tests (set_heap h st).
Proof. reflexivity. Qed.

Lemma set_heap_twice h h' st : set_heap h (set_heap h' st) = set_heap h st.
Proof. reflexivity. Qed.

Lemma ResultStore_get_add file_name result s :
  ResultStore.get file_name (Result.id result) (ResultStore.add file_name result s)
  = Some result.
Proof.
  unfold ResultStore.get, ResultStore.add.
  rewrite lookup_insert_eq. simpl. apply lookup_insert_eq.
Qed.

(** ** Counting notifications *)

Lemma times_app p evs1 evs2 : times p (evs1 ++ evs2) = (times p evs1 + times p evs2)%nat.
Proof. unfold times. by rewrite filter_app, length_app. Qed.

Lemma times_cons p e evs :
  times p (e :: evs) = ((if p e then 1 else 0) + times p evs)%nat.
Proof.
  unfold times. destruct (p e) eqn:Hp.
  - by rewrite filter_cons_True.
  - rewrite filter_cons_False; [done|]. by rewrite Hp.
Qed.

Lemma times_nil p : times p [] = 0%nat.
Proof. done. Qed.

Lemma times_none p evs : Forall (λ e, p e = false) evs → times p evs = 0%nat.
Proof.
  induction 1 as [|e evs He Hevs IH]; [done|].
  by rewrite times_cons, He, IH.
Qed.

Lemma about_removed i : about (reported_removed i) i.
Proof. intros [] He; simpl in *; try done. by apply bool_decide_eq_true_1 in He as ->. Qed.

Lemma about_new i : about (reported_new i) i.
Proof. intros [] He; simpl in *; try done. by apply bool_decide_eq_true_1 in He as ->. Qed.

Lemma about_replaced i : about (reported_replaced i) i.
Proof. intros [] He; simpl in *; try done. by apply bool_decide_eq_true_1 in He as ->. Qed.

Lemma about_moved i : about (reported_moved i) i.
Proof. intros [] He; simpl in *; try done. by apply bool_decide_eq_true_1 in He as ->. Qed.

Lemma times_about_other p i evs :
  about p i →
  Forall (λ e, event_id e ≠ Some i) evs →
  times p evs = 0%nat.
Proof.
  intros Hp Hevs. apply times_none.
  eapply Forall_impl; [exact Hevs|]. intros e He. simpl in He.
  destruct (p e) eqn:Hpe; [|done]. by apply Hp in Hpe.
Qed.

(** ** The loops of [runner], by value *)

Lemma insert_middle {A} (h0 done rest : list A) t t' :
  <[(length h0 + length done)%nat := t']> (h0 ++ done ++ t :: rest)
  = h0 ++ (done ++ [t']) ++ rest.
Proof.
  rewrite insert_app_r.
  rewrite <- (Nat.add_0_r (length done)), insert_app_r. simpl.
  by rewrite <- (app_assoc done).
Qed.

Lemma lookup_middle {A} (h0 done rest : list A) t :
  (h0 ++ done ++ t :: rest) !! (length h0 + length done)%nat = Some t.
Proof.
  rewrite lookup_app_r by lia.
  replace (length h0 + length done - length h0)%nat with (length done) by lia.
  apply list_lookup_middle. done.
Qed.

Lemma visit_outcome_allocated h0 rs is_running d t :
  dict_allocated h0 d →
  dict_allocated h0 (visit_outcome h0 rs is_running d t).1.1.
Proof.
  intros Hd. unfold visit_outcome.
  repeat case_match; simpl; try done; by apply dict_pop_Forall.
Qed.

Lemma runner_visit_step h0 rs is_running done rest t d st :
  heap st = h0 ++ done ++ t :: rest →
  results st = rs →
  dict_allocated h0 d →
  runner_visit is_running (d, st) (length h0 + length done)%nat
  = let '(d1, evs1, t') := visit_outcome h0 rs is_running d t in
    (d1, emit_all evs1 (set_heap (h0 ++ (done ++ [t']) ++ rest) st)).
Proof.
  intros Hheap Hrs Hd. unfold runner_visit, visit_outcome.
  rewrite Hheap, lookup_middle, Hrs.
  assert (h0 ++ (done ++ [t]) ++ rest = heap st) as Hsame
    by (by rewrite Hheap, <- (app_assoc done)).
  destruct (dict_get (Test.id t) d) as [rl|] eqn:Hget.
  - assert ((rl < length h0)%nat) as Hrl.
    { apply dict_get_Some_elem in Hget.
      by apply (proj1 (Forall_forall _ _) Hd) in Hget. }
    rewrite lookup_app_l by done.
    destruct (h0 !! rl) as [recorded|]; [case_bool_decide|].
    + f_equal. unfold emit_all, set_heap, emit, store. simpl.
      by rewrite Hheap, insert_middle.
    + by rewrite Hsame, set_heap_same, emit_all_nil.
    + by rewrite Hsame, set_heap_same, emit_all_nil.
  - destruct (ResultStore.get _ _ rs) as [existing|];
      by rewrite Hsame, set_heap_same.
Qed.

Lemma runner_visit_loop h0 rs is_running rest : ∀ done d st,
  heap st = h0 ++ done ++ rest →
  results st = rs →
  dict_allocated h0 d →
  foldl (runner_visit is_running) (d, st)
        (seq (length h0 + length done)%nat (length rest))
  = let '(d', evs, rest') := diff_loop h0 rs is_running d rest in
    (d', emit_all evs (set_heap (h0 ++ done ++ rest') st)).
Proof.
  induction rest as [|t rest IH]; intros done d st Hheap Hrs Hd.
  - simpl. by rewrite emit_all_nil, <- Hheap, set_heap_same.
  - cbn [length seq foldl diff_loop].
    rewrite (runner_visit_step h0 rs is_running done rest t) by done.
    pose proof (visit_outcome_allocated h0 rs is_running d t Hd) as Hd1.
    destruct (visit_outcome h0 rs is_running d t) as [[d1 evs1] t'].
    simpl in Hd1.
    replace (S (length h0 + length done))
      with (length h0 + length (done ++ [t']))%nat
      by (rewrite length_app; simpl; lia).
    rewrite IH; [|done|done|done].
    destruct (diff_loop h0 rs is_running d1 rest) as [[d2 evs2] rest'].
    f_equal. unfold emit_all, set_heap. simpl.
    by rewrite <- !app_assoc, fmap_app.
Qed.

Lemma runner_clear_loop h : ∀ d st,
  heap st = h →
  foldl runner_clear st d = emit_all (clear_events h d) st.
Proof.
  induction d as [|[k l] d IH]; intros st Hheap.
  - simpl. by rewrite emit_all_nil.
  - simpl. unfold runner_clear at 2. simpl. rewrite Hheap.
    destruct (h !! l) as [removed|]; simpl.
    + rewrite IH by done. unfold emit_all, emit. simpl.
      by rewrite <- !app_assoc.
    + by rewrite IH.
Qed.

Lemma diff_loop_allocated h0 rs is_running found : ∀ d,
  dict_allocated h0 d →
  dict_allocated h0 (diff_loop h0 rs is_running d found).1.1.
Proof.
  induction found as [|t found IH]; intros d Hd; [done|].
  cbn [diff_loop].
  pose proof (visit_outcome_allocated h0 rs is_running d t Hd) as Hd1.
  destruct (visit_outcome h0 rs is_running d t) as [[d1 evs1] t'].
  specialize (IH d1 Hd1).
  by destruct (diff_loop h0 rs is_running d1 found) as [[d2 evs2] rest'].
Qed.

Lemma clear_events_app h0 more d :
  dict_allocated h0 d → clear_events (h0 ++ more) d = clear_events h0 d.
Proof.
  induction 1 as [|[k l] d Hl Hd IH]; [done|].
  unfold clear_events in *. cbn [omap list_omap] in *. simpl in Hl.
  by rewrite lookup_app_l, IH.
Qed.

(** [runner], by value: the state a pass leaves behind. *)
Lemma runner_by_value file_name d callback found is_running st :
  dict_allocated (heap st) d →
  ∃ remaining evs found',
    diff_loop (heap st) (results st) is_running d found = (remaining, evs, found')
    ∧ runner file_name d callback found is_running st
      = schedule_all (callback_schedules callback)
          (emit_all (StoreSortedIds file_name (Test.id <$> found)
                       :: evs ++ clear_events (heap st) remaining ++ [PositionsUpdate])
             (set_stored file_name (seq (length (heap st)) (length found))
                (set_heap (heap st ++ found') st))).
Proof.
  intros Hd.
  pose proof (diff_loop_allocated (heap st) (results st) is_running found d Hd) as Hrem.
  destruct (diff_loop (heap st) (results st) is_running d found)
    as [[remaining evs] found'] eqn:Hloop.
  exists remaining, evs, found'. split; [done|].
  unfold runner, alloc_all.
  pose proof (runner_visit_loop (heap st) (results st) is_running found [] d
                (emit (StoreSortedIds file_name (Test.id <$> found))
                   (set_stored file_name (seq (length (heap st)) (length found))
                      (set_heap (heap st ++ found) st)))
                eq_refl eq_refl Hd) as Hvisit.
  cbn [length] in Hvisit. rewrite Nat.add_0_r in Hvisit.
  rewrite Hvisit, Hloop. cbn [fst snd app] in Hrem |- *.
  rewrite (runner_clear_loop (heap st ++ found')) by reflexivity.
  rewrite clear_events_app by done.
  rewrite !emit_as_emit_all, set_heap_emit_all, set_heap_set_stored, set_heap_twice.
  rewrite !emit_all_app.
  destruct callback as [[f|l f]|]; [reflexivity | reflexivity |].
  symmetry. apply schedule_all_nil.
Qed.

(** ** What the loops report *)

Section Diff.

Variables (h : list Test.t) (rs : ResultStore.t) (is_running : string -> Z).

Lemma visit_outcome_dict d t :
  (visit_outcome h rs is_running d t).1.1 = d
  ∨ (visit_outcome h rs is_running d t).1.1 = dict_pop (Test.id t) d.
Proof. unfold visit_outcome. repeat case_match; simpl; auto. Qed.

Lemma visit_outcome_event_ids d t :
  Forall (λ e, event_id e = Some (Test.id t)) (visit_outcome h rs is_running d t).1.2.
Proof. unfold visit_outcome. repeat case_match; simpl; by repeat constructor. Qed.

Lemma visit_outcome_id d t :
  Test.id (visit_outcome h rs is_running d t).2 = Test.id t.
Proof. unfold visit_outcome. by repeat case_match. Qed.

Lemma visit_outcome_congr d1 d2 t :
  dict_get (Test.id t) d1 = dict_get (Test.id t) d2 →
  (visit_outcome h rs is_running d1 t).1.2 = (visit_outcome h rs is_running d2 t).1.2
  ∧ (visit_outcome h rs is_running d1 t).2 = (visit_outcome h rs is_running d2 t).2.
Proof.
  intros Hget. unfold visit_outcome. rewrite Hget.
  by repeat case_match.
Qed.

Lemma visit_outcome_get_other d t i :
  Test.id t ≠ i →
  dict_get i (visit_outcome h rs is_running d t).1.1 = dict_get i d.
Proof.
  intros Hne.
  destruct (visit_outcome_dict d t) as [-> | ->]; [done|].
  by apply dict_get_pop_ne.
Qed.

Lemma visit_outcome_get_same d t :
  NoDup d.*1 →
  dict_get (Test.id t) (visit_outcome h rs is_running d t).1.1 = None.
Proof.
  intros Hd. unfold visit_outcome.
  destruct (dict_get (Test.id t) d) eqn:Hget.
  - repeat case_match; simpl; by apply dict_get_pop_eq.
  - by repeat case_match.
Qed.

Lemma visit_outcome_sub (P : string * loc → Prop) d t :
  NoDup d.*1 → Forall P d →
  NoDup (visit_outcome h rs is_running d t).1.1.*1
  ∧ Forall P (visit_outcome h rs is_running d t).1.1
  ∧ ∀ i, dict_get i d = None →
         dict_get i (visit_outcome h rs is_running d t).1.1 = None.
Proof.
  intros Hnd HP.
  destruct (visit_outcome_dict d t) as [-> | ->]; [done|].
  split_and!; [by apply dict_pop_NoDup | by apply dict_pop_Forall |].
  intros i. rewrite !dict_get_None. intros Hi Hin. by apply dict_pop_keys in Hin.
Qed.

Lemma diff_loop_cons d t found :
  diff_loop h rs is_running d (t :: found)
  = let '(d1, evs1, t') := visit_outcome h rs is_running d t in
    let '(d2, evs2, rest') := diff_loop h rs is_running d1 found in
    (d2, evs1 ++ evs2, t' :: rest').
Proof. done. Qed.

Lemma diff_loop_sub (P : string * loc → Prop) found : ∀ d,
  NoDup d.*1 → Forall P d →
  NoDup (diff_loop h rs is_running d found).1.1.*1
  ∧ Forall P (diff_loop h rs is_running d found).1.1
  ∧ ∀ i, dict_get i d = None →
         dict_get i (diff_loop h rs is_running d found).1.1 = None.
Proof.
  induction found as [|t found IH]; intros d Hnd HP; [done|].
  rewrite diff_loop_cons.
  destruct (visit_outcome_sub P d t Hnd HP) as (Hnd1 & HP1 & Hnone1).
  destruct (visit_outcome h rs is_running d t) as [[d1 evs1] t'].
  destruct (IH d1 Hnd1 HP1) as (Hnd2 & HP2 & Hnone2).
  destruct (diff_loop h rs is_running d1 found) as [[d2 evs2] rest'].
  simpl in *. auto.
Qed.

(** A test id that was not discovered: nothing in the loop is about
    it, and its entry in the dictionary survives. *)
Lemma diff_loop_absent i found : ∀ d,
  i ∉ Test.id <$> found →
  dict_get i (diff_loop h rs is_running d found).1.1 = dict_get i d
  ∧ Forall (λ e, event_id e ≠ Some i) (diff_loop h rs is_running d found).1.2
  ∧ Test.id <$> (diff_loop h rs is_running d found).2 = Test.id <$> found.
Proof.
  induction found as [|t found IH]; intros d Hi; [done|].
  rewrite fmap_cons, not_elem_of_cons in Hi. destruct Hi as [Hne Hi].
  rewrite diff_loop_cons.
  pose proof (visit_outcome_get_other d t i (not_eq_sym Hne)) as Hget1.
  pose proof (visit_outcome_event_ids d t) as Hev1.
  pose proof (visit_outcome_id d t) as Hid1.
  destruct (visit_outcome h rs is_running d t) as [[d1 evs1] t'].
  destruct (IH d1 Hi) as (Hget2 & Hev2 & Hid2).
  destruct (diff_loop h rs is_running d1 found) as [[d2 evs2] rest'].
  simpl in *. split_and!.
  - congruence.
  - apply Forall_app. split; [|done].
    eapply Forall_impl; [exact Hev1|]. simpl. congruence.
  - by f_equal.
Qed.

Lemma diff_loop_ids found : ∀ d,
  Test.id <$> (diff_loop h rs is_running d found).2 = Test.id <$> found.
Proof.
  induction found as [|t found IH]; intros d; [done|].
  rewrite diff_loop_cons.
  pose proof (visit_outcome_id d t) as Hid1.
  destruct (visit_outcome h rs is_running d t) as [[d1 evs1] t'].
  specialize (IH d1).
  destruct (diff_loop h rs is_running d1 found) as [[d2 evs2] rest'].
  simpl in *. by f_equal.
Qed.

(** A discovered test whose id occurs once: the loop reports about
    it exactly what its own visit reports, whatever was visited
    before. *)
Lemma diff_loop_focus t found : ∀ d,
  NoDup d.*1 →
  NoDup (Test.id <$> found) →
  t ∈ found →
  let '(remaining, evs, found') := diff_loop h rs is_running d found in
  let '(_, evs1, t') := visit_outcome h rs is_running d t in
  (∀ p, about p (Test.id t) → times p evs = times p evs1)
  ∧ (∀ e, e ∈ evs1 → e ∈ evs)
  ∧ t' ∈ found'
  ∧ dict_get (Test.id t) remaining = None.
Proof.
  induction found as [|t0 found IH]; intros d Hnd Hids Hin.
  { by apply elem_of_nil in Hin. }
  rewrite fmap_cons, NoDup_cons in Hids. destruct Hids as [Ht0 Hids].
  rewrite diff_loop_cons.
  apply elem_of_cons in Hin as [<- | Hin].
  - pose proof (visit_outcome_get_same d t Hnd) as Hsame.
    destruct (visit_outcome_sub (λ _, True) d t Hnd) as (Hnd1 & _ & _).
    { by apply Forall_true. }
    destruct (visit_outcome h rs is_running d t) as [[d1 evs1] t'].
    destruct (diff_loop_absent (Test.id t) found d1 Ht0) as (Hget & Hev & _).
    destruct (diff_loop_sub (λ _, True) found d1 Hnd1) as (_ & _ & Hnone).
    { by apply Forall_true. }
    destruct (diff_loop h rs is_running d1 found) as [[d2 evs2] rest'].
    simpl in *. split_and!.
    + intros p Hp. rewrite times_app, (times_about_other p (Test.id t) evs2); [lia|done|done].
    + intros e He. apply elem_of_app. by left.
    + left.
    + auto.
  - assert (Test.id t0 ≠ Test.id t) as Hne.
    { intros Heq. apply Ht0. rewrite Heq. by apply list_elem_of_fmap_2. }
    pose proof (visit_outcome_get_other d t0 (Test.id t) Hne) as Hget1.
    pose proof (visit_outcome_event_ids d t0) as Hev1.
    destruct (visit_outcome_sub (λ _, True) d t0 Hnd) as (Hnd1 & _ & _).
    { by apply Forall_true. }
    destruct (visit_outcome h rs is_running d t0) as [[d1 evs1] t0'].
    specialize (IH d1 Hnd1 Hids Hin).
    destruct (visit_outcome_congr d1 d t Hget1) as [Hevs Ht'].
    destruct (diff_loop h rs is_running d1 found) as [[d2 evs2] rest'].
    destruct (visit_outcome h rs is_running d1 t) as [[d1' evs1'] t1'].
    destruct (visit_outcome h rs is_running d t) as [[d' evs'] t'].
    simpl in *. subst evs1' t1'.
    destruct IH as (Htimes & Hsub & Hmem & Hnone).
    split_and!; [| |by right|done].
    + intros p Hp. rewrite times_app, (times_about_other p (Test.id t) evs1), Htimes;
        [done|done|done|].
      eapply Forall_impl; [exact Hev1|]. simpl. congruence.
    + intros e He. apply elem_of_app. right. auto.
Qed.

End Diff.

Section Reports.

Variables (h : list Test.t) (rs : ResultStore.t) (is_running : string -> Z).

Lemma diff_loop_kinds found : ∀ d,
  Forall loop_event (diff_loop h rs is_running d found).1.2.
Proof.
  induction found as [|t found IH]; intros d; [by constructor|].
  rewrite diff_loop_cons.
  assert (Forall loop_event (visit_outcome h rs is_running d t).1.2) as Hev1.
  { unfold visit_outcome. repeat case_match; simpl; by repeat constructor. }
  destruct (visit_outcome h rs is_running d t) as [[d1 evs1] t'].
  specialize (IH d1).
  destruct (diff_loop h rs is_running d1 found) as [[d2 evs2] rest'].
  simpl in *. apply Forall_app. done.
Qed.

(** Every new-test notification is about a test without cached
    result. *)
Lemma diff_loop_new_uncached found : ∀ d t,
  ProcessNew t ∈ (diff_loop h rs is_running d found).1.2 →
  t ∈ found ∧ ResultStore.get (Test.file t) (Test.id t) rs = None.
Proof.
  induction found as [|t0 found IH]; intros d t.
  { simpl. intros Hin. by apply elem_of_nil in Hin. }
  rewrite diff_loop_cons.
  assert (ProcessNew t ∈ (visit_outcome h rs is_running d t0).1.2 →
          t = t0 ∧ ResultStore.get (Test.file t) (Test.id t) rs = None) as Hev1.
  { unfold visit_outcome. repeat case_match; simpl;
      rewrite ?list_elem_of_singleton; intros Hin;
      try (by apply elem_of_nil in Hin); by simplify_eq. }
  destruct (visit_outcome h rs is_running d t0) as [[d1 evs1] t'].
  specialize (IH d1 t).
  destruct (diff_loop h rs is_running d1 found) as [[d2 evs2] rest'].
  simpl in *. rewrite elem_of_app. intros [Hin | Hin].
  - destruct (Hev1 Hin) as [-> ?]. split; [left | done].
  - destruct (IH Hin). split; [by right | done].
Qed.

(** A discovered test that is not recorded and has a cached result
    is reported as replaced, with that result. *)
Lemma diff_loop_replaced found : ∀ d t r,
  NoDup d.*1 →
  t ∈ found →
  dict_get (Test.id t) d = None →
  ResultStore.get (Test.file t) (Test.id t) rs = Some r →
  ProcessReplace t r ∈ (diff_loop h rs is_running d found).1.2.
Proof.
  induction found as [|t0 found IH]; intros d t r Hnd Hin Hget Hres.
  { by apply elem_of_nil in Hin. }
  rewrite diff_loop_cons.
  destruct (visit_outcome_sub h rs is_running (λ _, True) d t0 Hnd)
    as (Hnd1 & _ & Hnone1).
  { by apply Forall_true. }
  assert (t0 = t → ProcessReplace t r ∈ (visit_outcome h rs is_running d t0).1.2)
    as Hev1.
  { intros ->. unfold visit_outcome. rewrite Hget, Hres. simpl. left. }
  destruct (visit_outcome h rs is_running d t0) as [[d1 evs1] t'].
  specialize (IH d1 t r Hnd1).
  destruct (diff_loop h rs is_running d1 found) as [[d2 evs2] rest'].
  simpl in *. apply elem_of_app.
  apply elem_of_cons in Hin as [-> | Hin]; [left; auto | right; auto].
Qed.

Lemma clear_events_kinds d :
  Forall (λ e, ∃ t, e = ProcessClear t) (clear_events h d).
Proof.
  induction d as [|[k l] d IH]; [by constructor|].
  unfold clear_events in *. cbn [omap list_omap]. simpl.
  destruct (h !! l); simpl; [constructor; eauto | done].
Qed.

(** The removal notifications: one per entry left in the
    dictionary. *)
Lemma clear_events_times i d :
  NoDup d.*1 →
  Forall (λ p : string * loc, ∃ t, h !! p.2 = Some t ∧ Test.id t = p.1) d →
  times (reported_removed i) (clear_events h d)
  = match dict_get i d with Some _ => 1%nat | None => 0%nat end.
Proof.
  induction d as [|[k l] d IH]; [done|].
  rewrite fmap_cons, NoDup_cons, Forall_cons. simpl.
  intros [Hk Hnd] [(t & Hl & Hid) Hd].
  unfold clear_events in *. cbn [omap list_omap]. simpl. rewrite Hl. simpl.
  rewrite times_cons, IH by done. simpl. rewrite Hid.
  case_decide; subst.
  - rewrite bool_decide_eq_true_2 by done.
    apply dict_get_None in Hk. by rewrite Hk.
  - rewrite bool_decide_eq_false_2 by done. done.
Qed.

End Reports.

Lemma times_clear_events_other p h d :
  (∀ t, p (ProcessClear t) = false) → times p (clear_events h d) = 0%nat.
Proof.
  intros Hp. apply times_none.
  eapply Forall_impl; [apply clear_events_kinds|]. by intros e [t ->].
Qed.

Lemma times_loop_removed i h rs is_running d found :
  times (reported_removed i) (diff_loop h rs is_running d found).1.2 = 0%nat.
Proof.
  apply times_none.
  eapply Forall_impl; [apply diff_loop_kinds|]. by intros [].
Qed.

(** ** The recorded dictionary and the snapshot *)

Lemma objects_elem h locs l t : (l, t) ∈ objects h locs → h !! l = Some t.
Proof.
  unfold objects. rewrite list_elem_of_omap. intros (l' & _ & Hl).
  destruct (h !! l') eqn:Hh; simpl in Hl; by simplify_eq.
Qed.

Lemma recorded_tests_fold h objs : ∀ prev d,
  Forall (λ p : loc * Test.t, h !! p.1 = Some p.2) objs →
  dict_of h prev d →
  dict_of h (prev ++ objs.*2)
          (foldl (λ d '(l, t), dict_set (Test.id t) l d) d objs).
Proof.
  induction objs as [|[l t] objs IH]; intros prev d Hobjs Hd.
  - simpl. by rewrite app_nil_r.
  - apply Forall_cons in Hobjs as [Hl Hobjs]. simpl in Hl.
    rewrite fmap_cons. simpl.
    replace (prev ++ t :: objs.*2) with ((prev ++ [t]) ++ objs.*2)
      by (by rewrite <- app_assoc).
    apply IH; [done|].
    destruct Hd as (Hnd & Hentries & Hkeys). split_and!.
    + by apply dict_set_NoDup.
    + apply dict_set_Forall.
      * exists t. simpl. split_and!; [done|done|]. apply elem_of_app. right. left.
      * eapply Forall_impl; [exact Hentries|].
        intros [k l'] (t' & ? & ? & ?). exists t'. split_and!; [done|done|].
        apply elem_of_app. by left.
    + intros t' Hin. apply dict_set_keys.
      apply elem_of_app in Hin as [Hin | Hin]; [right; auto|].
      apply list_elem_of_singleton in Hin as ->. by left.
Qed.

Lemma recorded_tests_dict_of file_name st :
  dict_of (heap st) (snapshot file_name st) (recorded_tests file_name st).
Proof.
  unfold recorded_tests, snapshot.
  apply (recorded_tests_fold (heap st) _ [] []).
  - apply Forall_forall. intros [l t] Hin. by apply objects_elem in Hin.
  - split_and!; [constructor | constructor |].
    intros t Hin. by apply elem_of_nil in Hin.
Qed.

Lemma dict_of_allocated h prev d : dict_of h prev d → dict_allocated h d.
Proof.
  intros (_ & Hentries & _). eapply Forall_impl; [exact Hentries|].
  intros [k l] (t & Hl & _). simpl in *. by apply lookup_lt_Some in Hl.
Qed.

Lemma dict_of_keys h prev d i : dict_of h prev d → i ∈ d.*1 ↔ i ∈ Test.id <$> prev.
Proof.
  intros (_ & Hentries & Hkeys). split.
  - intros Hin. apply list_elem_of_fmap in Hin as ([k l] & -> & Hin).
    apply (proj1 (Forall_forall _ _) Hentries) in Hin as (t & _ & <- & Ht).
    by apply list_elem_of_fmap_2.
  - intros Hin. apply list_elem_of_fmap in Hin as (t & -> & Hin). auto.
Qed.

Lemma dict_of_entries h prev d :
  dict_of h prev d →
  Forall (λ p : string * loc, ∃ t, h !! p.2 = Some t ∧ Test.id t = p.1) d.
Proof.
  intros (_ & Hentries & _). eapply Forall_impl; [exact Hentries|].
  intros [k l] (t & ? & ? & _). eauto.
Qed.

Lemma NoDup_fmap_eq {A B} (f : A → B) (l : list A) x y :
  NoDup (f <$> l) → x ∈ l → y ∈ l → f x = f y → x = y.
Proof.
  induction l as [|a l IH]; intros Hnd Hx Hy Hxy.
  { by apply elem_of_nil in Hx. }
  rewrite fmap_cons, NoDup_cons in Hnd. destruct Hnd as [Ha Hnd].
  apply elem_of_cons in Hx as [-> | Hx], Hy as [-> | Hy]; [done| | |auto].
  - exfalso. apply Ha. rewrite Hxy. by apply list_elem_of_fmap_2.
  - exfalso. apply Ha. rewrite <- Hxy. by apply list_elem_of_fmap_2.
Qed.

Lemma objects_fresh h0 rest : ∀ before,
  (objects (h0 ++ before ++ rest)
           (seq (length h0 + length before)%nat (length rest))).*2 = rest.
Proof.
  induction rest as [|t rest IH]; intros before; [reflexivity|].
  cbn [length seq]. unfold objects. cbn [omap list_omap].
  rewrite lookup_middle. simpl. f_equal.
  specialize (IH (before ++ [t])).
  rewrite length_app, <- app_assoc in IH. simpl in IH.
  by rewrite Nat.add_1_r, Nat.add_succ_r in IH.
Qed.

(** ** One pass of [runner], observed *)

Lemma pass_state cs evs file_name tests h st :
  let st' := schedule_all cs (emit_all evs (set_stored file_name tests (set_heap h st))) in
  let committed := <[file_name := tests]> (stored_tests st) in
  stored_tests st' = committed
  ∧ heap st' = h
  ∧ trace st' = trace st ++ ((λ e, (e, committed)) <$> evs)
  ∧ launched st' = launched st
  ∧ scheduled st' = scheduled st ++ cs.
Proof. by split_and!. Qed.

Lemma runner_observed file_name callback found is_running st s :
  heap s = heap st → results s = results st → stored_tests s = stored_tests st →
  let d := recorded_tests file_name st in
  let st' := runner file_name d callback found is_running s in
  let committed :=
    <[file_name := seq (length (heap st)) (length found)]> (stored_tests st) in
  ∃ remaining evs found',
    diff_loop (heap st) (results st) is_running d found = (remaining, evs, found')
    ∧ emitted_since s st'
      = StoreSortedIds file_name (Test.id <$> found)
          :: evs ++ clear_events (heap st) remaining ++ [PositionsUpdate]
    ∧ logged_since s st' = (λ e, (e, committed)) <$> emitted_since s st'
    ∧ stored_tests st' = committed
    ∧ snapshot file_name st' = found'
    ∧ launched st' = launched s
    ∧ scheduled st' = scheduled s ++ callback_schedules callback.
Proof.
  intros Hheap_s Hres_s Hstored_s d st' committed.
  pose proof (recorded_tests_dict_of file_name st) as Hdict.
  destruct (runner_by_value file_name d callback found is_running s)
    as (remaining & evs & found' & Hloop & Hrun).
  { rewrite Hheap_s. by eapply dict_of_allocated. }
  rewrite Hheap_s, Hres_s in Hloop. rewrite Hheap_s in Hrun.
  exists remaining, evs, found'.
  fold st' in Hrun.
  destruct (pass_state (callback_schedules callback)
              (StoreSortedIds file_name (Test.id <$> found)
                 :: evs ++ clear_events (heap st) remaining ++ [PositionsUpdate])
              file_name (seq (length (heap st)) (length found))
              (heap st ++ found') s)
    as (Hstored & Hheap & Htrace & Hlaunched & Hscheduled).
  rewrite <- Hrun, Hstored_s in Hstored, Htrace.
  rewrite <- Hrun in Hheap, Hlaunched, Hscheduled.
  fold committed in Hstored, Htrace.
  assert (emitted_since s st'
          = StoreSortedIds file_name (Test.id <$> found)
              :: evs ++ clear_events (heap st) remaining ++ [PositionsUpdate]) as Hev.
  { unfold emitted_since, events. rewrite Htrace.
    rewrite fmap_app, drop_app_length' by (by rewrite length_fmap).
    rewrite <- list_fmap_compose. apply list_fmap_id. }
  split_and!; try done.
  - rewrite Hev. unfold logged_since. rewrite Htrace.
    by rewrite drop_app_length.
  - unfold snapshot, stored_get. rewrite Hstored, Hheap. unfold committed.
    rewrite lookup_insert_eq. cbn [default].
    pose proof (diff_loop_ids (heap st) (results st) is_running found d) as Hids.
    rewrite Hloop in Hids. cbn [snd] in Hids.
    apply (f_equal length) in Hids. rewrite !length_fmap in Hids.
    rewrite <- Hids.
    pose proof (objects_fresh (heap st) found' []) as Hobj.
    cbn [length app] in Hobj. by rewrite Nat.add_0_r in Hobj.
Qed.

(** ** One reconciliation pass, observed *)

(** When the file is on disk and has detection rules, [update_positions]
    resets the editor's caches if nothing was recorded, and launches
    [runner] with the recorded dictionary. *)
Lemma update_positions_launches ed file_name callback st vim_patterns :
  available_patterns ed file_name = Some vim_patterns →
  ∃ resets,
    Forall (λ e, ∃ var, e = Setbufvar file_name var) resets
    ∧ update_positions ed file_name callback st
      = launch "update_positions"
          (CoRunner file_name vim_patterns (recorded_tests file_name st) callback)
          (emit_all resets st).
Proof.
  unfold available_patterns, update_positions. intros Havailable.
  destruct (isfile ed file_name); [|done]. simpl.
  destruct (get_patterns ed file_name) as [|[|p ps]]; [done|done|]. simplify_eq.
  destruct (recorded_tests file_name st) as [|entry entries].
  - exists [Setbufvar file_name "ultest_results"; Setbufvar file_name "ultest_tests";
            Setbufvar file_name "ultest_sorted_tests"].
    split; [repeat constructor; eauto|].
    by rewrite !emit_as_emit_all, !emit_all_app.
  - exists []. split; [constructor|]. by rewrite emit_all_nil.
Qed.

Lemma reconcile_observed ed file_name callback found is_running st :
  is_Some (available_patterns ed file_name) →
  let d := recorded_tests file_name st in
  let st1 := update_positions ed file_name callback st in
  let st' := reconcile ed file_name callback found is_running st in
  let committed :=
    <[file_name := seq (length (heap st)) (length found)]> (stored_tests st) in
  ∃ remaining evs found' resets,
    diff_loop (heap st) (results st) is_running d found = (remaining, evs, found')
    ∧ Forall (λ e, ∃ var, e = Setbufvar file_name var) resets
    ∧ emitted_since st st'
      = resets ++ StoreSortedIds file_name (Test.id <$> found)
          :: evs ++ clear_events (heap st) remaining ++ [PositionsUpdate]
    ∧ logged_since st1 st'
      = (λ e, (e, committed))
          <$> (StoreSortedIds file_name (Test.id <$> found)
                 :: evs ++ clear_events (heap st) remaining ++ [PositionsUpdate])
    ∧ stored_tests st1 = stored_tests st
    ∧ stored_tests st' = committed
    ∧ snapshot file_name st' = found'
    ∧ scheduled st' = scheduled st ++ callback_schedules callback.
Proof.
  intros [vim_patterns Havailable] d st1 st' committed.
  destruct (update_positions_launches ed file_name callback st vim_patterns Havailable)
    as (resets & Hresets & Hlaunch).
  assert (st' = runner file_name d callback found is_running st1) as Hst'.
  { unfold st', reconcile. fold st1. unfold launched_since.
    replace (launched st1)
      with (launched st ++ [("update_positions",
                             CoRunner file_name vim_patterns d callback)])
      by (unfold st1; by rewrite Hlaunch).
    by rewrite drop_app_length. }
  destruct (runner_observed file_name callback found is_running st st1)
    as (remaining & evs & found' & Hloop & Hev & Hlog & Hstored & Hsnap & _ & Hsch);
    try (unfold st1; by rewrite Hlaunch).
  fold d in Hloop, Hev, Hlog, Hstored, Hsnap, Hsch.
  rewrite <- Hst' in Hev, Hlog, Hstored, Hsnap, Hsch.
  fold committed in Hlog, Hstored.
  exists remaining, evs, found', resets.
  split_and!; try done.
  - unfold emitted_since in *.
    assert (events st1 = events st ++ resets) as Hev1.
    { unfold st1, events. rewrite Hlaunch. cbn [launch emit_all trace].
      rewrite fmap_app, <- list_fmap_compose. f_equal. apply list_fmap_id. }
    assert (events st' = events st1 ++ drop (length (events st1)) (events st')) as Hsplit.
    { rewrite <- (take_drop (length (events st1)) (events st')) at 1. f_equal.
      unfold events. rewrite Hst'.
      destruct (runner_by_value file_name d callback found is_running st1)
        as (? & ? & ? & _ & ->).
      { unfold st1. rewrite Hlaunch. cbn [launch emit_all heap].
        eapply dict_of_allocated, recorded_tests_dict_of. }
      cbn [schedule_all emit_all set_stored set_heap trace].
      by rewrite fmap_app, take_app_length' by (by rewrite length_fmap). }
    rewrite Hsplit, Hev, Hev1, <- app_assoc. by rewrite drop_app_length.
  - by rewrite Hlog, Hev.
  - unfold st1. by rewrite Hlaunch.
  - rewrite Hsch. unfold st1. by rewrite Hlaunch.
Qed.

Lemma times_after_resets p file_name resets evs :
  (∀ f var, p (Setbufvar f var) = false) →
  Forall (λ e, ∃ var, e = Setbufvar file_name var) resets →
  times p (resets ++ evs) = times p evs.
Proof.
  intros Hp Hresets. rewrite times_app, times_none; [done|].
  eapply Forall_impl; [exact Hresets|]. by intros e [var ->].
Qed.

(** ** Reconciliation *)

(** C1. Exhaustive diff.  In a reconciliation pass whose discovered
    tests have unique ids (the invariant of a file's sequence): every id
    of the previous snapshot that was not discovered is reported exactly
    once as removed (and not as new, replaced or moved); every discovered
    test whose id was not in the previous snapshot is reported exactly
    once, as replaced with the cached Result when the Result Cache has one
    under the test's (file, id), as new when it has none, never both (and
    never as removed or moved). *)
Theorem exhaustive_diff ed file_name callback found is_running st :
  is_Some (available_patterns ed file_name) →
  NoDup (Test.id <$> found) →
  let prev := snapshot file_name st in
  let st' := reconcile ed file_name callback found is_running st in
  let evs := emitted_since st st' in
  (∀ i, i ∈ Test.id <$> prev → i ∉ Test.id <$> found →
        times (reported_removed i) evs = 1%nat
        ∧ times (reported_new i) evs = 0%nat
        ∧ times (reported_replaced i) evs = 0%nat
        ∧ times (reported_moved i) evs = 0%nat)
  ∧ (∀ t, t ∈ found → Test.id t ∉ Test.id <$> prev →
          times (reported_removed (Test.id t)) evs = 0%nat
          ∧ times (reported_moved (Test.id t)) evs = 0%nat
          ∧ match ResultStore.get (Test.file t) (Test.id t) (results st) with
            | Some existing_result =>
                ProcessReplace t existing_result ∈ evs
                ∧ times (reported_replaced (Test.id t)) evs = 1%nat
                ∧ times (reported_new (Test.id t)) evs = 0%nat
            | None =>
                ProcessNew t ∈ evs
                ∧ times (reported_new (Test.id t)) evs = 1%nat
                ∧ times (reported_replaced (Test.id t)) evs = 0%nat
            end).
Proof.
  intros Havailable Hids prev st' evs.
  pose proof (recorded_tests_dict_of file_name st) as Hdict.
  destruct (reconcile_observed ed file_name callback found is_running st Havailable)
    as (remaining & levs & found' & resets & Hloop & Hresets & Hev & _).
  fold st' evs in Hev.
  set (d := recorded_tests file_name st) in *.
  assert (NoDup d.*1) as Hnd by apply Hdict.
  destruct (diff_loop_sub (heap st) (results st) is_running _ found d Hnd
              (dict_of_entries _ _ _ Hdict)) as (Hnd' & Hentries' & _).
  pose proof (times_loop_removed) as Hnorem.
  specialize (Hnorem) with (h := heap st) (rs := results st)
                           (is_running := is_running) (d := d) (found := found).
  rewrite Hloop in Hnd', Hentries', Hnorem. simpl in Hnd', Hentries', Hnorem.
  split.
  - intros i Hprev Hfound.
    destruct (diff_loop_absent (heap st) (results st) is_running i found d Hfound)
      as (Hget & Hother & _).
    rewrite Hloop in Hget, Hother. simpl in Hget, Hother.
    assert (is_Some (dict_get i d)) as [l Hl].
    { apply dict_get_is_Some. by apply (dict_of_keys _ _ _ _ Hdict). }
    rewrite Hev. rewrite !(times_after_resets _ file_name resets) by done.
    rewrite !times_cons, !times_app, !times_cons, !times_nil. simpl.
    rewrite Hnorem, (clear_events_times _ i remaining Hnd' Hentries'), Hget, Hl.
    rewrite !(times_about_other _ i levs), !times_clear_events_other;
      auto using about_new, about_replaced, about_moved.
  - intros t Hin Hprev.
    assert (dict_get (Test.id t) d = None) as Hnone.
    { apply dict_get_None. by rewrite (dict_of_keys _ _ _ _ Hdict). }
    pose proof (diff_loop_focus (heap st) (results st) is_running t found d
                  Hnd Hids Hin) as Hfocus.
    rewrite Hloop in Hfocus. unfold visit_outcome in Hfocus.
    rewrite Hnone in Hfocus.
    rewrite Hev. rewrite !(times_after_resets _ file_name resets) by done.
    rewrite !times_cons, !times_app, !times_cons, !times_nil. simpl.
    rewrite Hnorem, (clear_events_times _ _ remaining Hnd' Hentries').
    rewrite !times_clear_events_other by done.
    destruct (ResultStore.get _ _ (results st)) as [existing|];
      destruct Hfocus as (Htimes & Hsub & _ & ->);
      rewrite (Htimes _ (about_moved _)), (Htimes _ (about_new _)),
        (Htimes _ (about_replaced _));
      rewrite !times_cons, !times_nil; simpl;
      rewrite ?bool_decide_eq_true_2 by done;
      (split_and!; try done);
      apply elem_of_app; right;
      apply elem_of_cons; right; apply elem_of_app; left; apply Hsub; left.
Qed.

(** The scenario of the specification: [t1@10, t2@20] cached, the re-scan
    returns [t1@15, t3@20]. *)
Lemma exhaustive_diff_witness :
  let st' := reconcile all_files "a_test.go" None [t1_15; t3_20] (λ _, 0) cached_a in
  times (reported_removed "t2") (emitted_since cached_a st') = 1%nat
  ∧ ProcessNew t3_20 ∈ emitted_since cached_a st'
  ∧ times (reported_new "t3") (emitted_since cached_a st') = 1%nat.
Proof.
  intros st'.
  assert (is_Some (available_patterns all_files "a_test.go")) as Havailable
    by by_evaluation.
  assert (NoDup (Test.id <$> [t1_15; t3_20])) as Hids by by_evaluation.
  assert ("t2" ∈ Test.id <$> snapshot "a_test.go" cached_a) as Hgone by by_evaluation.
  assert ("t2" ∉ Test.id <$> [t1_15; t3_20]) as Habsent by by_evaluation.
  assert (t3_20 ∈ [t1_15; t3_20]) as Hin by by_evaluation.
  assert (Test.id t3_20 ∉ Test.id <$> snapshot "a_test.go" cached_a) as Hprev
    by by_evaluation.
  destruct (exhaustive_diff all_files "a_test.go" None [t1_15; t3_20] (λ _, 0)
              cached_a Havailable Hids)
    as [Hremoved Hnew].
  destruct (Hremoved "t2" Hgone Habsent) as (Honce & _).
  destruct (Hnew t3_20 Hin Hprev) as (_ & _ & Hcase).
  change (ResultStore.get (Test.file t3_20) (Test.id t3_20) (results cached_a))
    with (@None Result.t) in Hcase.
  destruct Hcase as (Hevent & Hnew_once & _).
  exact (conj Honce (conj Hevent Hnew_once)).
Defined.

(** C2. Identity stability under moves.  In a pass between snapshots
    with unique ids, a test whose id is in the previous snapshot and in
    the discovered list, at a different line, is reported by exactly one
    move notification (carrying the test at its new position), and not
    as removed, new or replaced; in the committed snapshot its running
    flag is the Run Engine's [is_running] answer of the pass, whatever
    the previous snapshot said. *)
Theorem moved_test_identity ed file_name callback found is_running st old t :
  let prev := snapshot file_name st in
  let st' := reconcile ed file_name callback found is_running st in
  let evs := emitted_since st st' in
  let moved := set_running (is_running (Test.id t)) t in
  is_Some (available_patterns ed file_name) →
  NoDup (Test.id <$> prev) →
  NoDup (Test.id <$> found) →
  old ∈ prev → t ∈ found →
  Test.id old = Test.id t →
  Test.line old ≠ Test.line t →
  times (reported_moved (Test.id t)) evs = 1%nat
  ∧ ProcessMove moved ∈ evs
  ∧ times (reported_removed (Test.id t)) evs = 0%nat
  ∧ times (reported_new (Test.id t)) evs = 0%nat
  ∧ times (reported_replaced (Test.id t)) evs = 0%nat
  ∧ moved ∈ snapshot file_name st'
  ∧ ∀ u, u ∈ snapshot file_name st' → Test.id u = Test.id t →
         Test.running u = is_running (Test.id t).
Proof.
  intros prev st' evs moved Havailable Hprev Hids Hold Hin Hid Hline.
  pose proof (recorded_tests_dict_of file_name st) as Hdict.
  destruct (reconcile_observed ed file_name callback found is_running st Havailable)
    as (remaining & levs & found' & resets & Hloop & Hresets & Hev & _ & _ & _
        & Hsnap & _).
  fold st' evs in Hev, Hsnap.
  set (d := recorded_tests file_name st) in *.
  assert (NoDup d.*1) as Hnd by apply Hdict.
  destruct (diff_loop_sub (heap st) (results st) is_running _ found d Hnd
              (dict_of_entries _ _ _ Hdict)) as (Hnd' & Hentries' & _).
  pose proof (times_loop_removed (Test.id t) (heap st) (results st) is_running d found)
    as Hnorem.
  pose proof (diff_loop_ids (heap st) (results st) is_running found d) as Hids'.
  rewrite Hloop in Hnd', Hentries', Hnorem, Hids'.
  simpl in Hnd', Hentries', Hnorem, Hids'.
  (* the dictionary maps the id to the previous object *)
  assert (∃ l, dict_get (Test.id t) d = Some l ∧ heap st !! l = Some old)
    as (l & Hget & Hl).
  { assert (is_Some (dict_get (Test.id t) d)) as [l Hget].
    { apply dict_get_is_Some. rewrite <- Hid. by apply Hdict. }
    exists l. split; [done|].
    apply dict_get_Some_elem in Hget.
    destruct Hdict as (_ & Hentries & _).
    apply (proj1 (Forall_forall _ _) Hentries) in Hget as (t0 & Hl & Hid0 & Ht0).
    simpl in *. rewrite Hl. f_equal.
    apply (NoDup_fmap_eq Test.id prev); [done|done|done|congruence]. }
  pose proof (diff_loop_focus (heap st) (results st) is_running t found d
                Hnd Hids Hin) as Hfocus.
  rewrite Hloop in Hfocus. unfold visit_outcome in Hfocus.
  rewrite Hget, Hl, bool_decide_eq_true_2 in Hfocus by done.
  destruct Hfocus as (Htimes & Hsub & Hmem & Hnone).
  rewrite Hev. rewrite !(times_after_resets _ file_name resets) by done.
  rewrite !times_cons, !times_app, !times_cons, !times_nil. simpl.
  rewrite Hnorem, (clear_events_times _ _ remaining Hnd' Hentries'), Hnone.
  rewrite !times_clear_events_other by done.
  rewrite (Htimes _ (about_moved _)), (Htimes _ (about_new _)),
    (Htimes _ (about_replaced _)).
  rewrite !times_cons, !times_nil. simpl.
  rewrite bool_decide_eq_true_2 by done.
  rewrite Hsnap.
  split_and!; try done.
  - apply elem_of_app. right.
    apply elem_of_cons. right. apply elem_of_app. left. apply Hsub. left.
  - intros u Hu Hidu.
    assert (u = moved) as ->; [|done].
    apply (NoDup_fmap_eq Test.id found'); [by rewrite Hids'|done|done|done].
Qed.

Lemma moved_test_identity_witness :
  let st' := reconcile all_files "a_test.go" None [t1_15; t3_20] (λ _, 1) cached_a in
  times (reported_moved "t1") (emitted_since cached_a st') = 1%nat
  ∧ ProcessMove (set_running 1 t1_15) ∈ emitted_since cached_a st'
  ∧ set_running 1 t1_15 ∈ snapshot "a_test.go" st'.
Proof.
  intros st'.
  assert (is_Some (available_patterns all_files "a_test.go")) as Havailable
    by by_evaluation.
  assert (NoDup (Test.id <$> snapshot "a_test.go" cached_a)) as Hprev by by_evaluation.
  assert (NoDup (Test.id <$> [t1_15; t3_20])) as Hids by by_evaluation.
  assert (t1_10 ∈ snapshot "a_test.go" cached_a) as Hold by by_evaluation.
  assert (t1_15 ∈ [t1_15; t3_20]) as Hin by by_evaluation.
  assert (Test.line t1_10 ≠ Test.line t1_15) as Hline by by_evaluation.
  destruct (moved_test_identity all_files "a_test.go" None [t1_15; t3_20] (λ _, 1)
              cached_a t1_10 t1_15 Havailable Hprev Hids Hold Hin eq_refl Hline)
    as (Hmoved & Hevent & _ & _ & _ & Hsnap & _).
  exact (conj Hmoved (conj Hevent Hsnap)).
Defined.

(** C3. Reappearance restores the cached result.  In every pass, a
    discovered test whose id is not in the previous snapshot and for
    which the Result Cache holds a Result under the test's (file, id) is
    reported by a replace notification carrying that Result, and no
    new-test notification of the pass is about that (file, id). *)
Theorem reappearance_restores_result ed file_name callback found is_running st t
        existing_result :
  let prev := snapshot file_name st in
  let st' := reconcile ed file_name callback found is_running st in
  let evs := emitted_since st st' in
  is_Some (available_patterns ed file_name) →
  t ∈ found →
  Test.id t ∉ Test.id <$> prev →
  ResultStore.get (Test.file t) (Test.id t) (results st) = Some existing_result →
  ProcessReplace t existing_result ∈ evs
  ∧ ∀ t', ProcessNew t' ∈ evs →
          ¬ (Test.id t' = Test.id t ∧ Test.file t' = Test.file t).
Proof.
  intros prev st' evs Havailable Hin Hprev Hres.
  pose proof (recorded_tests_dict_of file_name st) as Hdict.
  destruct (reconcile_observed ed file_name callback found is_running st Havailable)
    as (remaining & levs & found' & resets & Hloop & Hresets & Hev & _).
  fold st' evs in Hev.
  set (d := recorded_tests file_name st) in *.
  assert (NoDup d.*1) as Hnd by apply Hdict.
  assert (dict_get (Test.id t) d = None) as Hnone.
  { apply dict_get_None. by rewrite (dict_of_keys _ _ _ _ Hdict). }
  pose proof (diff_loop_replaced (heap st) (results st) is_running found d t
                existing_result Hnd Hin Hnone Hres) as Hrep.
  pose proof (diff_loop_new_uncached (heap st) (results st) is_running found d)
    as Hnew.
  rewrite Hloop in Hrep, Hnew. simpl in Hrep, Hnew.
  rewrite Hev. split.
  - apply elem_of_app. right. apply elem_of_cons. right. apply elem_of_app. by left.
  - intros t' Hin' [Hid Hfile].
    apply elem_of_app in Hin' as [Hin' | Hin'].
    { apply (proj1 (Forall_forall _ _) Hresets) in Hin' as [? ?]. done. }
    apply elem_of_cons in Hin' as [? | Hin']; [done|].
    apply elem_of_app in Hin' as [Hin' | Hin'].
    + apply Hnew in Hin' as [_ Hnone']. congruence.
    + apply elem_of_app in Hin' as [Hin' | Hin'].
      * pose proof (clear_events_kinds (heap st) remaining) as Hkinds.
        apply (proj1 (Forall_forall _ _) Hkinds) in Hin' as [? ?]. done.
      * by apply list_elem_of_singleton in Hin'.
Qed.

Lemma reappearance_restores_result_witness :
  let st' := reconcile all_files "a_test.go" None [t1_15; t3_20] (λ _, 0)
                       cached_a_t3 in
  ProcessReplace t3_20 earlier_t3 ∈ emitted_since cached_a_t3 st'
  ∧ ¬ ProcessNew t3_20 ∈ emitted_since cached_a_t3 st'.
Proof.
  intros st'.
  assert (is_Some (available_patterns all_files "a_test.go")) as Havailable
    by by_evaluation.
  assert (t3_20 ∈ [t1_15; t3_20]) as Hin by by_evaluation.
  assert (Test.id t3_20 ∉ Test.id <$> snapshot "a_test.go" cached_a_t3) as Hprev
    by by_evaluation.
  assert (ResultStore.get (Test.file t3_20) (Test.id t3_20) (results cached_a_t3)
          = Some earlier_t3) as Hres by (vm_compute; reflexivity).
  destruct (reappearance_restores_result all_files "a_test.go" None [t1_15; t3_20]
              (λ _, 0) cached_a_t3 t3_20 earlier_t3 Havailable Hin Hprev Hres)
    as [Hreplace Hnew].
  split; [exact Hreplace|].
  intros Hin'. exact (Hnew t3_20 Hin' (conj eq_refl eq_refl)).
Defined.

(** C9, as the code has it.  The new list is committed first: every
    notification the discovery task of a pass makes, the removal
    notifications included, is made when [snapshot[file]] already is the
    list of the newly discovered objects, which is also what the pass
    leaves committed.  (Before the task is launched the snapshot is
    untouched.) *)
Theorem commit_precedes_notifications ed file_name callback found is_running st :
  is_Some (available_patterns ed file_name) →
  let launched_at := update_positions ed file_name callback st in
  let st' := reconcile ed file_name callback found is_running st in
  let tests := seq (length (heap st)) (length found) in
  stored_tests launched_at = stored_tests st
  ∧ (∀ e snap, (e, snap) ∈ logged_since launched_at st' →
               snap !! file_name = Some tests ∧ snap = stored_tests st')
  ∧ stored_tests st' !! file_name = Some tests
  ∧ (∀ removed, ProcessClear removed ∈ emitted_since st st' →
                ProcessClear removed ∈ (logged_since launched_at st').*1).
Proof.
  intros Havailable launched_at st' tests.
  destruct (reconcile_observed ed file_name callback found is_running st Havailable)
    as (remaining & levs & found' & resets & _ & Hresets & Hev & Hlog & Hsame
        & Hstored & _).
  fold st' launched_at in Hev, Hlog, Hsame, Hstored. rewrite Hlog, Hstored, Hev.
  split_and!.
  - done.
  - intros e snap Hin. apply list_elem_of_fmap in Hin as (e' & Heq & _).
    simplify_eq. split; [apply lookup_insert_eq | done].
  - apply lookup_insert_eq.
  - intros removed Hin. rewrite <- list_fmap_compose, list_fmap_id.
    apply elem_of_app in Hin as [Hin | Hin]; [|done].
    apply (proj1 (Forall_forall _ _) Hresets) in Hin as [? ?]. done.
Qed.

Lemma commit_precedes_notifications_witness :
  let launched_at := update_positions all_files "a_test.go" None cached_a in
  let st' := reconcile all_files "a_test.go" None [t1_15; t3_20] (λ _, 0) cached_a in
  ∃ snap, logged_since launched_at st' !! 3%nat = Some (ProcessClear t2_20, snap)
          ∧ snap !! "a_test.go" = Some [2; 3]%nat
          ∧ stored_tests cached_a !! "a_test.go" = Some [0; 1]%nat.
Proof.
  intros launched_at st'.
  assert (is_Some (available_patterns all_files "a_test.go")) as Havailable
    by by_evaluation.
  assert (∃ snap, logged_since launched_at st' !! 3%nat = Some (ProcessClear t2_20, snap))
    as [snap Hlook] by (eexists; vm_compute; reflexivity).
  exists snap. split; [exact Hlook|].
  destruct (commit_precedes_notifications all_files "a_test.go" None [t1_15; t3_20]
              (λ _, 0) cached_a Havailable) as (_ & Hlogged & _).
  destruct (Hlogged (ProcessClear t2_20) snap (list_elem_of_lookup_2 _ _ _ Hlook))
    as [Hsnap _].
  split; [exact Hsnap | vm_compute; reflexivity].
Defined.

(** C9, counterexample.  With [t1@10, t2@20] cached, a pass that
    discovers [t1@15, t3@20] notifies the new test [t3] (and, later, the
    removal of [t2]) when [snapshot[file]] no longer is the previous
    list. *)
Lemma notification_after_commit :
  let st' := reconcile all_files "a_test.go" None [t1_15; t3_20] (λ _, 0) cached_a in
  ¬ (∀ e snap, (e, snap) ∈ logged_since cached_a st' →
               per_test e = true →
               snap !! "a_test.go" = stored_tests cached_a !! "a_test.go").
Proof.
  intros st' Hclaim.
  assert (∃ snap, logged_since cached_a st' !! 2%nat = Some (ProcessNew t3_20, snap)
                  ∧ snap !! "a_test.go" = Some [2; 3]%nat) as (snap & Hlook & Hsnap).
  { eexists. split; vm_compute; reflexivity. }
  apply list_elem_of_lookup_2 in Hlook.
  specialize (Hclaim _ _ Hlook eq_refl).
  rewrite Hsnap in Hclaim. vm_compute in Hclaim. discriminate Hclaim.
Qed.

(** C7. Reconciliation fails closed: when the file is not on disk, or
    the pattern lookup raises, or it returns nothing, [update_positions]
    returns the state it was given: no discovery task launched, snapshot
    and caches untouched, no notification. *)
Theorem update_positions_fails_closed ed file_name callback st :
  isfile ed file_name = false
  ∨ get_patterns ed file_name = PatternsRaise
  ∨ get_patterns ed file_name = PatternsReturn [] →
  update_positions ed file_name callback st = st.
Proof.
  unfold update_positions.
  intros [-> | [-> | ->]]; simpl; try done; by destruct (isfile ed file_name).
Qed.

Lemma update_positions_fails_closed_witness :
  update_positions no_files "gone.py" None cached_a = cached_a.
Proof. apply update_positions_fails_closed. left. reflexivity. Defined.

(** ** Stopping *)

(** C8. [stop_test] with no payload (or any falsy one) changes nothing:
    snapshot, result cache and running flags are those of before, no
    job is stopped and nothing is emitted. *)
Theorem stop_test_without_payload test_dict st :
  truthy_dict test_dict = false →
  stop_test test_dict st = Some st.
Proof. unfold stop_test. by intros ->. Qed.

Lemma stop_test_without_payload_witness :
  stop_test None cached_a = Some cached_a ∧ stop_test (Some ∅) cached_a = Some cached_a.
Proof.
  split; apply stop_test_without_payload; reflexivity.
Defined.

(** ** External injection *)

Lemma Test_of_kwargs_payload_x : Test_of_kwargs payload_x = Some test_x.
Proof. vm_compute. reflexivity. Qed.

(** C5, as the code has it.  From any state, [external_start] followed by
    [external_result] with the payload of the scenario, exit code 1 and
    output "fail" succeeds; the Result Cache then holds the Result with
    code 1 and output "fail" under ("f", "x") and the live-output buffer
    of "x" is empty.  The handler does not reset the running flag: the
    object built by [external_start] and the test carried by the start
    and exit notifications have [running = 1], and the snapshot is the
    one of before. *)
Theorem external_round_trip st :
  ∃ st2,
    round_trip st = Some st2
    ∧ ResultStore.get "f" "x" (results st2) = Some result_x
    ∧ ProcessManager.external_outputs (process_manager st2) !! "x" = None
    ∧ emitted_since st st2 = [ProcessStart test_x; ProcessExit test_x result_x]
    ∧ heap st2 = heap st ++ [test_x]
    ∧ Test.running test_x = 1
    ∧ stored_tests st2 = stored_tests st.
Proof.
  unfold round_trip, external_start, external_result.
  rewrite Test_of_kwargs_payload_x. simpl.
  unfold register_started. simpl.
  rewrite lookup_app_r, Nat.sub_diag by done. simpl.
  eexists. split; [reflexivity|].
  unfold register_result. simpl.
  assert (∀ s, emitted_since st s = drop (length (events st)) (events s)) as Hev by done.
  case_match; simpl; (split_and!; [ | | | | done | done]).
  all: try apply (ResultStore_get_add "f" result_x).
  all: try apply lookup_delete_eq.
  all: try (rewrite Hev; unfold events; simpl;
            rewrite <- !app_assoc, fmap_app, drop_app_length'; by rewrite ?length_fmap).
  all: rewrite <- (Nat.add_0_r (length (heap st))) at 1; by rewrite insert_app_r.
Qed.

(** C5, counterexample.  After the round trip from a fresh handler, no
    [Test] with id "x" that the handler holds or has reported has a
    false running flag: the claim's "running flag is false" fails. *)
Lemma external_round_trip_running_stays_set :
  ∃ st2,
    round_trip init = Some st2
    ∧ ¬ (∃ t, (t ∈ heap st2
               ∨ ProcessStart t ∈ events st2
               ∨ (∃ r, ProcessExit t r ∈ events st2)
               ∨ t ∈ snapshot "f" st2)
              ∧ Test.id t = "x" ∧ Test.running t = 0).
Proof.
  eexists. split; [vm_compute; reflexivity|].
  intros (t & Hin & _ & Hrun).
  assert (t = test_x) as ->; [|discriminate Hrun].
  destruct Hin as [Hin | [Hin | [[r Hin] | Hin]]];
    apply list_elem_of_In in Hin; vm_compute in Hin;
    repeat (destruct Hin as [Hin | Hin]; [try discriminate Hin|]); try done;
    by simplify_eq.
Qed.

(** ** Dispatch and presentation *)

Lemma recorded_tests_empty file_name st :
  stored_get file_name st = [] → recorded_tests file_name st = [].
Proof. unfold recorded_tests. by intros ->. Qed.

Lemma update_positions_empty ed file_name callback st :
  stored_get file_name st = [] →
  launched_since st (update_positions ed file_name callback st)
  = match available_patterns ed file_name with
    | Some vim_patterns =>
        [("update_positions", CoRunner file_name vim_patterns [] callback)]
    | None => []
    end
  ∧ scheduled (update_positions ed file_name callback st) = scheduled st
  ∧ (available_patterns ed file_name = None →
     update_positions ed file_name callback st = st).
Proof.
  intros Hempty. unfold update_positions, available_patterns, launched_since.
  rewrite (recorded_tests_empty _ _ Hempty).
  destruct (isfile ed file_name); simpl; [|by rewrite drop_all].
  destruct (get_patterns ed file_name) as [|[|p ps]]; simpl;
    rewrite ?drop_all, ?drop_app_length; done.
Qed.

Lemma register_started_effects test st :
  launched (register_started test st) = launched st
  ∧ scheduled (register_started test st) = scheduled st.
Proof. unfold register_started. by case_match. Qed.

Lemma run_tests_effects ed tests : ∀ st,
  scheduled (run_tests ed tests st) = scheduled st
  ∧ ∃ runs, launched (run_tests ed tests st) = launched st ++ runs
            ∧ Forall (λ c, is_runner c = false) runs.
Proof.
  unfold run_tests.
  induction tests as [|test tests IH]; intros st.
  - simpl. split; [done|]. exists []. by rewrite app_nil_r.
  - simpl. destruct (IH (run_test ed st test)) as (Hsch & runs & Hl & Hruns).
    rewrite Hsch, Hl. unfold run_test.
    destruct (register_started_effects test st) as [Hl1 Hs1].
    case_match; simpl; rewrite Hl1, Hs1; (split; [done|]).
    + eexists. rewrite <- app_assoc. split; [done|]. by constructor.
    + by exists runs.
Qed.

(** C10. [run_single] never launches a reconciliation pass and never
    schedules a retry; on a file whose snapshot is absent, empty or holds
    no test with the given id it returns the state it was given: no run is
    dispatched, nothing is emitted, snapshot and Result Cache are
    unchanged. *)
Theorem run_single_without_match ed test_id file_name st :
  (scheduled (run_single ed test_id file_name st) = scheduled st
   ∧ Forall (λ c, is_runner c = false)
            (launched_since st (run_single ed test_id file_name st)))
  ∧ (Forall (λ t, Test.id t ≠ test_id) (snapshot file_name st) →
     run_single ed test_id file_name st = st).
Proof.
  unfold run_single, snapshot. split.
  - destruct (run_tests_effects ed
                (filter (λ p : loc * Test.t, Test.id p.2 = test_id)
                   (objects (heap st) (stored_get file_name st))).*1 st)
      as (Hscheduled & runs & Hlaunched & Hruns).
    split; [done|]. unfold launched_since. by rewrite Hlaunched, drop_app_length.
  - intros Hall.
    assert (filter (λ p : loc * Test.t, Test.id p.2 = test_id)
              (objects (heap st) (stored_get file_name st)) = []) as ->; [|done].
    induction (objects (heap st) (stored_get file_name st)) as [|p objs IH]; [done|].
    rewrite fmap_cons in Hall. apply Forall_cons in Hall as [Hp Hall].
    rewrite filter_cons_False; auto.
Qed.

Lemma run_single_without_match_witness :
  run_single all_files "t9" "a_test.go" cached_a = cached_a
  ∧ run_single all_files "t1" "b_test.go" cached_a = cached_a.
Proof.
  split.
  - apply (run_single_without_match all_files "t9" "a_test.go" cached_a).
    by_evaluation.
  - apply (run_single_without_match all_files "t1" "b_test.go" cached_a).
    by_evaluation.
Defined.

Section Dispatch.

Variable get_nearest_from : Z -> list Test.t -> bool -> option nat.

(** C4, as the code has it.  On a file whose snapshot holds no tests,
    the first [run_all] / [run_nearest] launches one reconciliation pass
    that carries the continuation when the file is on disk and has
    detection rules, and otherwise returns without launching anything;
    it schedules nothing itself.  When that pass ends, it re-invokes the
    caller exactly once, with [update_empty] cleared.  An invocation with
    [update_empty] cleared never launches a pass and never schedules a
    retry, and if the snapshot is still empty it changes nothing. *)
Theorem dispatch_retry_bound ed file_name line st :
  stored_get file_name st = [] →
  let again_all := Some (RunAllAfterUpdate file_name) in
  let again_nearest := Some (RunNearestAfterUpdate line file_name) in
  let pass callback :=
    match available_patterns ed file_name with
    | Some vim_patterns =>
        [("update_positions", CoRunner file_name vim_patterns [] callback)]
    | None => []
    end in
  (* the first invocation *)
  launched_since st (run_all ed file_name true st) = pass again_all
  ∧ scheduled (run_all ed file_name true st) = scheduled st
  ∧ launched_since st (run_nearest get_nearest_from ed line file_name true st)
    = pass again_nearest
  ∧ scheduled (run_nearest get_nearest_from ed line file_name true st) = scheduled st
  ∧ (available_patterns ed file_name = None →
     run_all ed file_name true st = st
     ∧ run_nearest get_nearest_from ed line file_name true st = st)
  (* the end of the pass *)
  ∧ (∀ vim_patterns found is_running s,
       let after_all :=
         resume (CoRunner file_name vim_patterns [] again_all)
                (Found found is_running) s in
       let after_nearest :=
         resume (CoRunner file_name vim_patterns [] again_nearest)
                (Found found is_running) s in
       scheduled after_all = scheduled s ++ [SchRunAll file_name false]
       ∧ launched after_all = launched s
       ∧ scheduled after_nearest = scheduled s ++ [SchRunNearest line file_name false]
       ∧ launched after_nearest = launched s)
  (* the second invocation *)
  ∧ (∀ ed' s,
       let retry_all := run_scheduled get_nearest_from ed' (SchRunAll file_name false) s in
       let retry_nearest :=
         run_scheduled get_nearest_from ed' (SchRunNearest line file_name false) s in
       scheduled retry_all = scheduled s
       ∧ scheduled retry_nearest = scheduled s
       ∧ Forall (λ c, is_runner c = false) (launched_since s retry_all)
       ∧ Forall (λ c, is_runner c = false) (launched_since s retry_nearest)
       ∧ (stored_get file_name s = [] → retry_all = s ∧ retry_nearest = s)).
Proof.
  intros Hempty again_all again_nearest pass.
  destruct (update_positions_empty ed file_name again_all st Hempty)
    as (Hl_all & Hs_all & Hno_all).
  destruct (update_positions_empty ed file_name again_nearest st Hempty)
    as (Hl_near & Hs_near & Hno_near).
  assert (run_all ed file_name true st
          = update_positions ed file_name again_all st) as Hall.
  { unfold run_all. by rewrite Hempty. }
  assert (run_nearest get_nearest_from ed line file_name true st
          = update_positions ed file_name again_nearest st) as Hnear.
  { unfold run_nearest. by rewrite Hempty. }
  rewrite Hall, Hnear.
  split_and!; try done.
  - intros Hnone. auto.
  - intros vim_patterns found is_running s. simpl.
    destruct (runner_by_value file_name [] again_all found is_running s)
      as (? & ? & ? & _ & ->); [by constructor|].
    destruct (runner_by_value file_name [] again_nearest found is_running s)
      as (? & ? & ? & _ & ->); [by constructor|].
    done.
  - intros ed' s. simpl.
    assert (∀ test, let r := run_tests ed' test s in
              scheduled r = scheduled s
              ∧ Forall (λ c, is_runner c = false) (launched_since s r)) as Hruns.
    { intros test. simpl.
      destruct (run_tests_effects ed' test s) as (Hs & runs & Hl & Hruns).
      split; [done|]. unfold launched_since. by rewrite Hl, drop_app_length. }
    assert (Forall (λ c, is_runner c = false) (launched_since s s)) as Hnil.
    { unfold launched_since. by rewrite drop_all. }
    unfold run_all, run_nearest. rewrite andb_false_r.
    split_and!.
    + case_bool_decide; [done|]. apply Hruns.
    + repeat case_match; try done; apply Hruns.
    + case_bool_decide; [done|]. apply Hruns.
    + repeat case_match; try done; apply Hruns.
    + intros ->. simpl. split; [done|].
      by destruct (get_nearest_from line [] false).
Qed.

(** C6. Automatic output presentation.  Registering a result opens
    nothing by itself: it notifies the exit and at most defers
    [_present_output].  When the deferred call runs, in whatever state
    [st] the handler is by then, the output is opened when the exit status
    is non-zero, the displayed buffer is the result's file and the
    non-strict nearest lookup on the snapshot of [st], at the line the
    buffer is at, yields a test with the result's id; in every other case
    nothing is opened and the state is unchanged. *)
Theorem present_output_conditions ed test result st0 st :
  let nearest_matches :=
    ∃ l t, get_nearest_test get_nearest_from
             (getbufinfo_lnum ed (Result.file result)) (Result.file result) false st
           = Some (l, t)
           ∧ Test.id t = Result.id result in
  let applies :=
    Result.code result ≠ 0 ∧ expand_percent ed = Result.file result
    ∧ nearest_matches in
  emitted_since st0 (register_result test result st0) = [ProcessExit test result]
  ∧ (scheduled_since st0 (register_result test result st0) = [SchPresentOutput result]
     ∨ scheduled_since st0 (register_result test result st0) = [])
  ∧ (applies →
     run_scheduled get_nearest_from ed (SchPresentOutput result) st
     = emit (OutputOpen result) st)
  ∧ (¬ applies →
     run_scheduled get_nearest_from ed (SchPresentOutput result) st = st).
Proof.
  intros nearest_matches applies. subst nearest_matches applies.
  split_and!.
  - unfold register_result, emitted_since, events.
    case_match; simpl; by rewrite fmap_app, drop_app_length', ?length_fmap.
  - unfold register_result, scheduled_since.
    case_match; simpl; [left | right].
    + by rewrite drop_app_length.
    + by rewrite drop_all.
  - intros (Hcode & Hbuf & l & t & Hnear & Hid). simpl. unfold present_output.
    rewrite !bool_decide_eq_true_2 by done. simpl.
    rewrite Hnear. by rewrite bool_decide_eq_true_2.
  - intros Hnot. simpl. unfold present_output.
    destruct (bool_decide (Result.code result ≠ 0)) eqn:Hcode; [|done].
    destruct (bool_decide (expand_percent ed = Result.file result)) eqn:Hbuf; [|done].
    simpl.
    destruct (get_nearest_test _ _ _ _ _) as [[l t]|] eqn:Hnear; [|done].
    destruct (bool_decide (Test.id t = Result.id result)) eqn:Hid; [|done].
    exfalso. apply Hnot.
    apply bool_decide_eq_true_1 in Hcode, Hbuf, Hid. eauto 10.
Qed.

End Dispatch.

Lemma dispatch_retry_bound_witness :
  launched_since init (run_all all_files "a_test.go" true init)
  = [("update_positions",
      CoRunner "a_test.go" [("test", ["def test"])] []
               (Some (RunAllAfterUpdate "a_test.go")))]
  ∧ run_scheduled simple_finder all_files (SchRunAll "a_test.go" false) init = init
  ∧ run_scheduled simple_finder all_files (SchRunNearest 5 "a_test.go" false) init = init.
Proof.
  destruct (dispatch_retry_bound simple_finder all_files "a_test.go" 5 init eq_refl)
    as (Hfirst & _ & _ & _ & _ & _ & Hsecond).
  split; [exact Hfirst|].
  destruct (Hsecond all_files init) as (_ & _ & _ & _ & Hsame).
  by apply Hsame.
Defined.

(** C4, counterexample.  For a file that is not on disk, with an empty
    snapshot, [run_all] and [run_nearest] launch no reconciliation pass
    at all (and so nothing ever re-invokes them): not exactly one. *)
Lemma no_retry_without_file :
  stored_get "gone.py" init = []
  ∧ ¬ (length (filter (λ c, is_runner c = true)
                 (launched_since init (run_all no_files "gone.py" true init)))
       = 1%nat)
  ∧ ¬ (length (filter (λ c, is_runner c = true)
                 (launched_since init
                    (run_nearest simple_finder no_files 5 "gone.py" true init)))
       = 1%nat)
  ∧ run_all no_files "gone.py" true init = init
  ∧ run_nearest simple_finder no_files 5 "gone.py" true init = init.
Proof. split_and!; try reflexivity; vm_compute; discriminate. Qed.

(** The failed run of [t1] is presented while the cursor is at line 12
    of [a_test.go] (nearest test: [t1]); the failed run of [t2] is not;
    and the failed run of [t1] is not presented either once the re-scan
    has moved [t1] below the cursor, although nothing else changed since
    the run was launched. *)
Lemma present_output_conditions_witness :
  run_scheduled simple_finder cursor_a_12 (SchPresentOutput failed_t1) cached_a
  = emit (OutputOpen failed_t1) cached_a
  ∧ run_scheduled simple_finder cursor_a_12 (SchPresentOutput failed_t2) cached_a
    = cached_a
  ∧ run_scheduled simple_finder cursor_a_12 (SchPresentOutput failed_t1) rescanned_a
    = rescanned_a.
Proof.
  split_and!.
  - destruct (present_output_conditions simple_finder cursor_a_12 t1_10 failed_t1
                init cached_a) as (_ & _ & Hopen & _).
    apply Hopen. split_and!; [by_evaluation | reflexivity |].
    exists 0%nat, t1_10. split; reflexivity.
  - destruct (present_output_conditions simple_finder cursor_a_12 t2_20 failed_t2
                init cached_a) as (_ & _ & _ & Hclosed).
    apply Hclosed. intros (_ & _ & l & t & Hnear & Hid).
    vm_compute in Hnear. by simplify_eq.
  - destruct (present_output_conditions simple_finder cursor_a_12 t1_10 failed_t1
                init rescanned_a) as (_ & _ & _ & Hclosed).
    apply Hclosed. intros (_ & _ & l & t & Hnear & Hid).
    vm_compute in Hnear. discriminate Hnear.
Defined.

(** * Further properties of the handler *)

(** ** Payloads *)

Lemma Test_dict_size t : size (Test_dict t) = 6%nat.
Proof.
  unfold Test_dict.
  repeat (rewrite map_size_insert_None;
          [|repeat (rewrite lookup_insert_ne by done); by rewrite ?lookup_singleton_ne]).
  by rewrite map_size_singleton.
Qed.

Lemma Test_of_kwargs_dict t : Test_of_kwargs (Test_dict t) = Some t.
Proof.
  unfold Test_of_kwargs.
  rewrite Test_dict_size, bool_decide_eq_true_2 by done.
  destruct t. reflexivity.
Qed.


Lemma Test_of_kwargs_truthy d t :
  Test_of_kwargs d = Some t → truthy_dict (Some d) = true.
Proof.
  unfold Test_of_kwargs, truthy_dict. case_bool_decide as Hsize; [|done].
  intros _. rewrite Hsize. reflexivity.
Qed.

Lemma emitted_since_app st st' evs :
  events st' = events st ++ evs → emitted_since st st' = evs.
Proof. unfold emitted_since. intros ->. by rewrite drop_app_length. Qed.

(** ** Stopping a test *)

(** X2. [stop_test] with a well-formed payload cancels the jobs under the
    payload's id and sends one move notification carrying the payload's
    test with [running = 0]; it works on a copy: the snapshot, the objects
    it refers to (their running flags included), the Result Cache and the
    Run Engine's registrations are exactly those of before. *)
Theorem stop_test_effects d t st :
  Test_of_kwargs d = Some t →
  ∃ st',
    stop_test (Some d) st = Some st'
    ∧ emitted_since st st' = [ProcessMove (set_running 0 t)]
    ∧ stopped st' = stopped st ++ [Test.id t]
    ∧ stored_tests st' = stored_tests st
    ∧ heap st' = heap st
    ∧ (∀ file_name, snapshot file_name st' = snapshot file_name st)
    ∧ results st' = results st
    ∧ process_manager st' = process_manager st
    ∧ launched st' = launched st
    ∧ scheduled st' = scheduled st.
Proof.
  intros Hbuild. unfold stop_test.
  rewrite (Test_of_kwargs_truthy d t Hbuild). simpl. rewrite Hbuild. simpl.
  eexists. split; [reflexivity|].
  split_and!; try reflexivity.
  apply emitted_since_app. unfold events. simpl. by rewrite fmap_app.
Qed.

(** Stopping [t1] while it runs: the editor is told [running = 0], the
    snapshot still says [running = 1]. *)
Lemma stop_test_effects_witness :
  ∃ st',
    stop_test (Some payload_idle) running_a = Some st'
    ∧ emitted_since running_a st' = [ProcessMove t1_10]
    ∧ snapshot "a_test.go" st' = [set_running 1 t1_10; set_running 1 t2_20].
Proof.
  assert (Test_of_kwargs payload_idle = Some t1_10) as Hbuild
    by (vm_compute; reflexivity).
  destruct (stop_test_effects payload_idle t1_10 running_a Hbuild)
    as (st' & Hstop & Hevents & _ & _ & _ & Hsnapshot & _).
  exists st'. split; [exact Hstop|]. split; [exact Hevents|].
  rewrite Hsnapshot. vm_compute. reflexivity.
Defined.

(** X3. Stopping the nearest test, with the dict [get_nearest_test_dict]
    returns: nothing happens when there is no nearest test, otherwise the
    nearest test of the snapshot is the one stopped. *)
Theorem stop_nearest get_nearest_from line file_name strict st :
  stop_test (get_nearest_test_dict get_nearest_from line file_name strict st) st
  = match get_nearest_test get_nearest_from line file_name strict st with
    | Some (_, test) =>
        Some (emit (ProcessMove (set_running 0 test)) (stop (Test.id test) st))
    | None => Some st
    end.
Proof.
  unfold get_nearest_test_dict.
  destruct (get_nearest_test _ _ _ _ _) as [[l test]|]; [|reflexivity].
  pose proof (Test_of_kwargs_dict test) as Hbuild.
  unfold stop_test.
  rewrite (Test_of_kwargs_truthy _ _ Hbuild). simpl. by rewrite Hbuild.
Qed.

(** ** External injection, in general *)

(** X4. [external_start] with a well-formed payload registers a new object
    with [running] forced to 1, whatever the payload says, and notifies
    its start; the live-output buffer of the id is written only when
    output is given; the snapshot and the Result Cache are untouched. *)
Theorem external_start_effects d t stdout st :
  Test_of_kwargs d = Some t →
  ∃ st',
    external_start d stdout st = Some st'
    ∧ emitted_since st st' = [ProcessStart (set_running 1 t)]
    ∧ heap st' = heap st ++ [set_running 1 t]
    ∧ ProcessManager.registered (process_manager st')
      = ProcessManager.registered (process_manager st) ++ [length (heap st)]
    ∧ ProcessManager.external_outputs (process_manager st')
      = (if bool_decide (stdout = "")
         then ProcessManager.external_outputs (process_manager st)
         else <[Test.id t := stdout]>
                (ProcessManager.external_outputs (process_manager st)))
    ∧ stored_tests st' = stored_tests st
    ∧ results st' = results st
    ∧ launched st' = launched st
    ∧ scheduled st' = scheduled st.
Proof.
  intros Hbuild. unfold external_start. rewrite Hbuild. simpl.
  unfold register_started. simpl.
  rewrite lookup_app_r, Nat.sub_diag by done. simpl.
  eexists. split; [reflexivity|].
  assert (<[length (heap st) := set_running 1 t]> (heap st ++ [t])
          = heap st ++ [set_running 1 t]) as Hheap.
  { rewrite <- (Nat.add_0_r (length (heap st))) at 1. by rewrite insert_app_r. }
  case_bool_decide; simpl; rewrite Hheap; split_and!; try reflexivity;
    apply emitted_since_app; unfold events; simpl; by rewrite fmap_app.
Qed.

Lemma external_start_effects_witness :
  ∃ st',
    external_start payload_idle "log line" cached_a = Some st'
    ∧ emitted_since cached_a st' = [ProcessStart (set_running 1 t1_10)]
    ∧ ProcessManager.external_outputs (process_manager st') !! "t1" = Some "log line"
    ∧ snapshot "a_test.go" st' = [t1_10; t2_20].
Proof.
  assert (Test_of_kwargs payload_idle = Some t1_10) as Hbuild
    by (vm_compute; reflexivity).
  destruct (external_start_effects payload_idle t1_10 "log line" cached_a Hbuild)
    as (st' & Hstart & Hevents & Hheap & _ & Hout & Hstored & _).
  exists st'. split; [exact Hstart|]. split; [exact Hevents|]. split.
  - rewrite Hout. reflexivity.
  - unfold snapshot, stored_get. rewrite Hstored, Hheap. vm_compute. reflexivity.
Defined.

(** X5. [external_result] with a well-formed payload needs no earlier
    [external_start]: it caches the Result built from the payload's id and
    file under that (file, id), empties the live-output buffer of the id,
    and notifies the exit with the payload's test as it came (its running
    flag is not touched).  The presentation of the output is deferred
    exactly when [show_on_run] is set and the output is not empty, whatever
    the exit code; nothing is opened at once.  Snapshot and objects are
    untouched. *)
Theorem external_result_effects d t exit_code stdout st :
  Test_of_kwargs d = Some t →
  let result := Result.mk (Test.id t) (Test.file t) exit_code stdout in
  ∃ st',
    external_result d exit_code stdout st = Some st'
    ∧ ResultStore.get (Test.file t) (Test.id t) (results st') = Some result
    ∧ ProcessManager.external_outputs (process_manager st')
      = delete (Test.id t) (ProcessManager.external_outputs (process_manager st))
    ∧ emitted_since st st' = [ProcessExit t result]
    ∧ scheduled_since st st'
      = (if bool_decide (show_on_run st ≠ 0 ∧ stdout ≠ "")
         then [SchPresentOutput result] else [])
    ∧ stored_tests st' = stored_tests st
    ∧ heap st' = heap st
    ∧ launched st' = launched st.
Proof.
  intros Hbuild result. unfold external_result. rewrite Hbuild. simpl.
  eexists. split; [reflexivity|]. fold result.
  unfold register_result. simpl.
  assert (∀ s evs, events s = events st ++ evs → emitted_since st s = evs) as Hev
    by (intros; by apply emitted_since_app).
  destruct (bool_decide (show_on_run st ≠ 0)) eqn:Hshow;
    destruct (bool_decide (stdout = "")) eqn:Hout; simpl.
  all: apply bool_decide_eq_true_1 in Hshow || apply bool_decide_eq_false_1 in Hshow.
  all: apply bool_decide_eq_true_1 in Hout || apply bool_decide_eq_false_1 in Hout.
  all: split_and!; try reflexivity.
  all: try apply (ResultStore_get_add (Test.file t) result).
  all: try (apply Hev; unfold events; simpl; by rewrite fmap_app).
  all: unfold scheduled_since; simpl.
  - rewrite bool_decide_eq_false_2 by naive_solver. by rewrite drop_all.
  - rewrite bool_decide_eq_true_2 by done. by rewrite drop_app_length.
  - rewrite bool_decide_eq_false_2 by naive_solver. by rewrite drop_all.
  - rewrite bool_decide_eq_false_2 by naive_solver. by rewrite drop_all.
Qed.

(** A failed external run without output: cached, notified, never
    presented. *)
Lemma external_result_effects_witness :
  ∃ st',
    external_result payload_idle 2 "" cached_a = Some st'
    ∧ ResultStore.get "a_test.go" "t1" (results st')
      = Some (Result.mk "t1" "a_test.go" 2 "")
    ∧ scheduled_since cached_a st' = [].
Proof.
  assert (Test_of_kwargs payload_idle = Some t1_10) as Hbuild
    by (vm_compute; reflexivity).
  destruct (external_result_effects payload_idle t1_10 2 "" cached_a Hbuild)
    as (st' & Hresult & Hcached & _ & _ & Hscheduled & _).
  exists st'. split; [exact Hresult|]. split; [exact Hcached|].
  rewrite Hscheduled. reflexivity.
Defined.

(** ** The environment of the test processes *)

Lemma prepare_var_lookup var value env k :
  prepare_var var value env !! k
  = if decide (k = var)
    then (if bool_decide (value ≠ 0) then Some (pretty value) else None)
    else env !! k.
Proof.
  unfold prepare_var.
  case_bool_decide as Hvalue; [|case_bool_decide as Hset]; case_decide; subst.
  - apply lookup_insert_eq.
  - by apply lookup_insert_ne.
  - apply lookup_delete_eq.
  - by apply lookup_delete_ne.
  - destruct (env !! var) eqn:Hvar; [|done]. exfalso. eauto.
  - done.
Qed.

(** X6. [_prepare_env]: afterwards [ROWS] and [COLUMNS] hold the decimal
    numerals of the configured sizes, or are absent when the size is 0
    (a stale value is removed); no other variable of the environment is
    touched, and doing it again changes nothing. *)
Theorem prepare_env_effects rows cols env :
  let env' := prepare_env rows cols env in
  env' !! "ROWS" = (if bool_decide (rows ≠ 0) then Some (pretty rows) else None)
  ∧ env' !! "COLUMNS" = (if bool_decide (cols ≠ 0) then Some (pretty cols) else None)
  ∧ (∀ k, k ≠ "ROWS" → k ≠ "COLUMNS" → env' !! k = env !! k)
  ∧ prepare_env rows cols env' = env'.
Proof.
  intros env'. subst env'. unfold prepare_env. split_and!.
  - rewrite !prepare_var_lookup.
    rewrite decide_False, decide_True by done. done.
  - rewrite prepare_var_lookup. by rewrite decide_True.
  - intros k Hrows Hcols. rewrite !prepare_var_lookup.
    by rewrite !decide_False.
  - apply map_eq. intros k. rewrite !prepare_var_lookup.
    repeat case_decide; done.
Qed.

(** ** Dispatch, by value *)

Lemma insert_as_alter (f : Test.t → Test.t) (h : list Test.t) l t :
  h !! l = Some t → <[l := f t]> h = alter f l h.
Proof.
  intros Hl. apply list_eq. intros i.
  destruct (decide (l = i)) as [<-|Hne].
  - rewrite list_lookup_alter_eq, Hl, list_lookup_insert_eq; [done|].
    by apply lookup_lt_Some in Hl.
  - by rewrite list_lookup_alter_ne, list_lookup_insert_ne.
Qed.

Lemma alter_dangling (f : Test.t → Test.t) (h : list Test.t) l :
  h !! l = None → alter f l h = h.
Proof.
  intros Hl. apply list_eq. intros i.
  destruct (decide (l = i)) as [<-|Hne].
  - by rewrite list_lookup_alter_eq, Hl.
  - by rewrite list_lookup_alter_ne.
Qed.

Lemma set_running_twice v t : set_running v (set_running v t) = set_running v t.
Proof. done. Qed.

Lemma started_objects_cons h l locs :
  started_objects h (l :: locs)
  = match h !! l with
    | Some t => (l, set_running 1 t) :: started_objects h locs
    | None => started_objects h locs
    end.
Proof.
  unfold started_objects, objects. cbn [omap list_omap].
  by destruct (h !! l).
Qed.

Lemma started_objects_alter l h locs :
  started_objects (alter (set_running 1) l h) locs = started_objects h locs.
Proof.
  induction locs as [|l0 locs IH]; [done|].
  rewrite !started_objects_cons, IH, list_lookup_alter.
  case_decide; subst; [|done].
  by destruct (h !! l0).
Qed.

Lemma mark_started_lookup locs : ∀ (h : list Test.t) (l : loc),
  mark_started locs h !! l
  = (if bool_decide (l ∈ locs) then set_running 1 else (λ t : Test.t, t)) <$> (h !! l).
Proof.
  unfold mark_started.
  induction locs as [|l0 locs IH]; intros h l.
  - simpl. by destruct (h !! l).
  - simpl. rewrite IH, list_lookup_alter.
    destruct (decide (l0 = l)) as [->|Hne].
    + rewrite (bool_decide_eq_true_2 (l ∈ l :: locs)) by left.
      destruct (h !! l); simpl; [|done]. by case_bool_decide.
    + case_bool_decide as Hin.
      * rewrite bool_decide_eq_true_2; [done|]. by right.
      * rewrite bool_decide_eq_false_2; [done|].
        rewrite elem_of_cons. naive_solver.
Qed.

Lemma mark_started_objects locs h :
  objects (mark_started locs h) locs = started_objects h locs.
Proof.
  unfold started_objects, objects.
  assert (∀ ls : list loc, (∀ l, l ∈ ls → l ∈ locs) →
            omap (λ l : loc, pair l <$> (mark_started locs h !! l)) ls
            = (λ p : loc * Test.t, (p.1, set_running 1 p.2))
                <$> omap (λ l : loc, pair l <$> (h !! l)) ls) as Hgen.
  { induction ls as [|l ls IH]; intros Hsub; [done|].
    cbn [omap list_omap]. rewrite mark_started_lookup.
    rewrite bool_decide_eq_true_2 by (apply Hsub; left).
    rewrite IH by (intros; apply Hsub; by right).
    by destruct (h !! l). }
  by apply Hgen.
Qed.

Lemma run_test_by_value ed st l :
  let st1 := run_test ed st l in
  match heap st !! l with
  | None => st1 = st
  | Some t =>
      let t' := set_running 1 t in
      trace st1 = trace st ++ [(ProcessStart t', stored_tests st)]
      ∧ launched st1 = launched st ++ [job_of ed (l, t')]
      ∧ heap st1 = alter (set_running 1) l (heap st)
      ∧ ProcessManager.registered (process_manager st1)
        = ProcessManager.registered (process_manager st) ++ [l]
      ∧ ProcessManager.external_outputs (process_manager st1)
        = ProcessManager.external_outputs (process_manager st)
      ∧ stored_tests st1 = stored_tests st
      ∧ results st1 = results st
      ∧ scheduled st1 = scheduled st
      ∧ stopped st1 = stopped st
      ∧ show_on_run st1 = show_on_run st
  end.
Proof.
  unfold run_test, register_started.
  destruct (heap st !! l) as [t|] eqn:Hl.
  - cbn [heap emit set_process_manager store set_heap].
    rewrite list_lookup_insert_eq by (by apply lookup_lt_Some in Hl).
    split_and!; try reflexivity.
    cbn [heap launch emit set_process_manager store set_heap].
    by apply insert_as_alter.
  - cbn zeta. by rewrite Hl.
Qed.

(** [_run_tests], by value. *)
Lemma run_tests_by_value ed locs : ∀ st,
  let st' := run_tests ed locs st in
  let started := started_objects (heap st) locs in
  trace st' = trace st ++ ((λ p, (ProcessStart p.2, stored_tests st)) <$> started)
  ∧ launched st' = launched st ++ (job_of ed <$> started)
  ∧ heap st' = mark_started locs (heap st)
  ∧ ProcessManager.registered (process_manager st')
    = ProcessManager.registered (process_manager st) ++ started.*1
  ∧ ProcessManager.external_outputs (process_manager st')
    = ProcessManager.external_outputs (process_manager st)
  ∧ stored_tests st' = stored_tests st
  ∧ results st' = results st
  ∧ scheduled st' = scheduled st
  ∧ stopped st' = stopped st
  ∧ show_on_run st' = show_on_run st.
Proof.
  induction locs as [|l locs IH]; intros st.
  - cbn. by rewrite !app_nil_r.
  - cbn zeta. unfold run_tests. cbn [foldl]. fold (run_tests ed locs (run_test ed st l)).
    specialize (IH (run_test ed st l)). cbn zeta in IH.
    pose proof (run_test_by_value ed st l) as Hstep. cbn zeta in Hstep.
    rewrite started_objects_cons. unfold mark_started. cbn [foldl].
    fold (mark_started locs (alter (set_running 1) l (heap st))).
    destruct (heap st !! l) as [t|] eqn:Hl.
    + destruct Hstep as (Htr & Hla & Hhe & Hre & Hex & Hst & Hrs & Hsc & Hsp & Hsh).
      destruct IH as (Htr' & Hla' & Hhe' & Hre' & Hex' & Hst' & Hrs' & Hsc' & Hsp' & Hsh').
      rewrite Hhe, started_objects_alter in Htr', Hla', Hre'.
      rewrite Hhe in Hhe'.
      rewrite Htr', Hla', Hhe', Hre', Hex', Hst', Hrs', Hsc', Hsp', Hsh'.
      rewrite Htr, Hla, Hre, Hex, Hst, Hrs, Hsc, Hsp, Hsh.
      rewrite !fmap_cons, <- !app_assoc. by split_and!.
    + rewrite Hstep in IH |- *. by rewrite (alter_dangling _ _ _ Hl).
Qed.

Lemma started_objects_values h locs :
  (started_objects h locs).*2 = set_running 1 <$> (objects h locs).*2.
Proof. unfold started_objects. by rewrite <- !list_fmap_compose. Qed.

Lemma started_objects_refs h locs :
  (started_objects h locs).*1 = (objects h locs).*1.
Proof. unfold started_objects. by rewrite <- !list_fmap_compose. Qed.

Lemma objects_of_objects h (sub : list (loc * Test.t)) :
  Forall (λ p, h !! p.1 = Some p.2) sub → objects h sub.*1 = sub.
Proof.
  induction 1 as [|[l t] sub Hl Hsub IH]; [done|].
  unfold objects in *. rewrite fmap_cons. cbn [omap list_omap].
  simpl in *. by rewrite Hl, IH.
Qed.

Lemma objects_allocated h locs : Forall (λ p, h !! p.1 = Some p.2) (objects h locs).
Proof. apply Forall_forall. intros [l t] Hin. by apply objects_elem in Hin. Qed.

Lemma filter_objects_values (test_id : string) (objs : list (loc * Test.t)) :
  (filter (λ p : loc * Test.t, Test.id p.2 = test_id) objs).*2
  = filter (λ t, Test.id t = test_id) objs.*2.
Proof.
  induction objs as [|[l t] objs IH]; [done|].
  rewrite fmap_cons. simpl.
  destruct (decide (Test.id t = test_id)) as [Hid|Hid].
  - rewrite !filter_cons_True by done. by rewrite fmap_cons, IH.
  - by rewrite !filter_cons_False.
Qed.

(** What a dispatch of the objects [locs] shows to the outside. *)
Lemma run_tests_observed ed locs st :
  let st' := run_tests ed locs st in
  emitted_since st st'
  = (λ t, ProcessStart (set_running 1 t)) <$> (objects (heap st) locs).*2
  ∧ launched_since st st' = job_of ed <$> started_objects (heap st) locs
  ∧ objects (heap st') locs = started_objects (heap st) locs.
Proof.
  destruct (run_tests_by_value ed locs st)
    as (Htrace & Hlaunched & Hheap & _).
  cbn zeta. split_and!.
  - apply emitted_since_app. unfold events. rewrite Htrace, fmap_app. f_equal.
    rewrite <- list_fmap_compose.
    unfold started_objects. by rewrite <- !list_fmap_compose.
  - unfold launched_since. by rewrite Hlaunched, drop_app_length.
  - rewrite Hheap. apply mark_started_objects.
Qed.

(** ** Dispatch *)

(** X7. [run_all] on a file whose snapshot is not empty never reconciles,
    whatever [update_empty] is: it marks every test of the snapshot
    running, notifies the start of each in snapshot order, and launches
    one job per test under the test's id, with the command built for the
    test once it is marked running.  The lists of the snapshot, the Result
    Cache and the deferred calls are untouched. *)
Theorem run_all_dispatches ed file_name update_empty st :
  stored_get file_name st ≠ [] →
  let st' := run_all ed file_name update_empty st in
  emitted_since st st'
  = (λ t, ProcessStart (set_running 1 t)) <$> snapshot file_name st
  ∧ launched_since st st'
    = job_of ed <$> started_objects (heap st) (stored_get file_name st)
  ∧ (launched_since st st').*1 = Test.id <$> snapshot file_name st
  ∧ snapshot file_name st' = set_running 1 <$> snapshot file_name st
  ∧ stored_tests st' = stored_tests st
  ∧ results st' = results st
  ∧ scheduled st' = scheduled st.
Proof.
  intros Hsome st'.
  assert (st' = run_tests ed (stored_get file_name st) st) as ->.
  { unfold st', run_all. by rewrite !bool_decide_eq_false_2. }
  destruct (run_tests_observed ed (stored_get file_name st) st)
    as (Hevents & Hlaunched & Hobjects).
  destruct (run_tests_by_value ed (stored_get file_name st) st)
    as (_ & _ & _ & _ & _ & Hstored & Hresults & Hscheduled & _).
  split_and!; try done.
  - rewrite Hlaunched, <- list_fmap_compose.
    unfold snapshot, started_objects. rewrite <- !list_fmap_compose.
    by apply list_fmap_ext.
  - assert (stored_get file_name (run_tests ed (stored_get file_name st) st)
            = stored_get file_name st) as Hsame
      by (unfold stored_get at 1; by rewrite Hstored).
    unfold snapshot. rewrite Hsame, Hobjects.
    apply started_objects_values.
Qed.

Lemma run_all_dispatches_witness :
  emitted_since cached_a (run_all all_files "a_test.go" false cached_a)
  = [ProcessStart (set_running 1 t1_10); ProcessStart (set_running 1 t2_20)]
  ∧ (launched_since cached_a (run_all all_files "a_test.go" false cached_a)).*1
    = ["t1"; "t2"]
  ∧ snapshot "a_test.go" (run_all all_files "a_test.go" false cached_a)
    = [set_running 1 t1_10; set_running 1 t2_20].
Proof.
  assert (stored_get "a_test.go" cached_a ≠ []) as Hsome by by_evaluation.
  destruct (run_all_dispatches all_files "a_test.go" false cached_a Hsome)
    as (Hevents & _ & Hjobs & Hsnapshot & _).
  assert (snapshot "a_test.go" cached_a = [t1_10; t2_20]) as Hprev
    by (vm_compute; reflexivity).
  rewrite Hprev in Hevents, Hjobs, Hsnapshot.
  exact (conj Hevents (conj Hjobs Hsnapshot)).
Defined.

(** X8. [run_single] starts exactly the tests of the snapshot that have the
    given id, in snapshot order, each under that id as job id; it never
    touches the lists of the snapshot, the Result Cache or the deferred
    calls. *)
Theorem run_single_dispatches ed test_id file_name st :
  let st' := run_single ed test_id file_name st in
  let matching := filter (λ t, Test.id t = test_id) (snapshot file_name st) in
  emitted_since st st' = (λ t, ProcessStart (set_running 1 t)) <$> matching
  ∧ (launched_since st st').*1 = (λ _, test_id) <$> matching
  ∧ stored_tests st' = stored_tests st
  ∧ results st' = results st
  ∧ scheduled st' = scheduled st.
Proof.
  intros st' matching. unfold st', run_single.
  set (objs := filter (λ p : loc * Test.t, Test.id p.2 = test_id)
                 (objects (heap st) (stored_get file_name st))).
  assert (objects (heap st) objs.*1 = objs) as Hobjs.
  { apply objects_of_objects. unfold objs.
    apply Forall_forall. intros p Hin.
    apply list_elem_of_filter in Hin as [_ Hin].
    by apply (proj1 (Forall_forall _ _) (objects_allocated _ _)) in Hin. }
  assert (objs.*2 = matching) as Hmatching.
  { unfold objs, matching, snapshot. apply filter_objects_values. }
  destruct (run_tests_observed ed objs.*1 st) as (Hevents & Hlaunched & _).
  destruct (run_tests_by_value ed objs.*1 st)
    as (_ & _ & _ & _ & _ & Hstored & Hresults & Hscheduled & _).
  split_and!; try done.
  - by rewrite Hevents, Hobjs, Hmatching.
  - rewrite Hlaunched. unfold started_objects. rewrite Hobjs, <- Hmatching.
    rewrite <- !list_fmap_compose. apply Forall_fmap_ext_1, Forall_forall.
    intros p Hin. unfold objs in Hin. simpl.
    by apply list_elem_of_filter in Hin as [Hid _].
Qed.

(** X9. [run_nearest] on a file whose snapshot is not empty never reconciles:
    it starts the test the finder returns for the line, non-strictly, and
    only that one; when the finder returns none it changes nothing. *)
Theorem run_nearest_dispatches get_nearest_from ed line file_name update_empty st :
  stored_get file_name st ≠ [] →
  let st' := run_nearest get_nearest_from ed line file_name update_empty st in
  match get_nearest_test get_nearest_from line file_name false st with
  | Some (l, t) =>
      emitted_since st st' = [ProcessStart (set_running 1 t)]
      ∧ launched_since st st' = [job_of ed (l, set_running 1 t)]
      ∧ heap st' !! l = Some (set_running 1 t)
      ∧ stored_tests st' = stored_tests st
      ∧ results st' = results st
      ∧ scheduled st' = scheduled st
  | None => st' = st
  end.
Proof.
  intros Hsome st'. unfold st', run_nearest, get_nearest_test.
  rewrite bool_decide_eq_false_2 by done. cbn [andb].
  set (objs := objects (heap st) (stored_get file_name st)).
  change (i ← get_nearest_from line objs.*2 false; objs !! i)
    with (get_nearest_from line objs.*2 false ≫= (objs !!.)).
  destruct (get_nearest_from line objs.*2 false ≫= (objs !!.)) as [[l t]|] eqn:Hnear;
    [|done].
  assert (heap st !! l = Some t) as Hl.
  { destruct (get_nearest_from line objs.*2 false) as [i|]; [|done].
    simpl in Hnear. apply list_elem_of_lookup_2 in Hnear.
    by apply objects_elem in Hnear. }
  destruct (run_tests_observed ed [l] st) as (Hevents & Hlaunched & Hobjects).
  destruct (run_tests_by_value ed [l] st)
    as (_ & _ & Hheap & _ & _ & Hstored & Hresults & Hscheduled & _).
  rewrite started_objects_cons, Hl in Hlaunched.
  unfold objects in Hevents. cbn [omap list_omap] in Hevents. rewrite Hl in Hevents.
  split_and!; try done.
  rewrite Hheap, mark_started_lookup, Hl.
  rewrite bool_decide_eq_true_2 by left. done.
Qed.

Lemma run_nearest_dispatches_witness :
  emitted_since cached_a (run_nearest simple_finder all_files 12 "a_test.go" true cached_a)
  = [ProcessStart (set_running 1 t1_10)]
  ∧ stored_tests (run_nearest simple_finder all_files 12 "a_test.go" true cached_a)
    = stored_tests cached_a.
Proof.
  assert (stored_get "a_test.go" cached_a ≠ []) as Hsome by by_evaluation.
  pose proof (run_nearest_dispatches simple_finder all_files 12 "a_test.go" true
                cached_a Hsome) as Hnearest.
  cbn zeta in Hnearest.
  change (get_nearest_test simple_finder 12 "a_test.go" false cached_a)
    with (Some (0%nat, t1_10)) in Hnearest.
  destruct Hnearest as (Hevents & _ & _ & Hstored & _).
  exact (conj Hevents Hstored).
Defined.

(** X10. A dispatched test, from start to completion: the exit notification
    carries the very test whose start was notified, the Result is cached
    under its own (file, id), and the handler leaves the object marked
    running: nothing on this path sets [running] back. *)
Theorem dispatch_then_completion ed l t result st :
  heap st !! l = Some t →
  let started := set_running 1 t in
  let st1 := run_tests ed [l] st in
  let st2 := resume (job_of ed (l, started)).2 (Finished result) st1 in
  launched_since st st1 = [job_of ed (l, started)]
  ∧ emitted_since st st2 = [ProcessStart started; ProcessExit started result]
  ∧ ResultStore.get (Result.file result) (Result.id result) (results st2) = Some result
  ∧ heap st2 !! l = Some started
  ∧ stored_tests st2 = stored_tests st.
Proof.
  intros Hl started st1 st2.
  destruct (run_tests_observed ed [l] st) as (_ & Hlaunched & _).
  destruct (run_tests_by_value ed [l] st)
    as (Htrace & _ & Hheap & _ & _ & Hstored & Hresults & _ & _ & Hshow).
  fold st1 in Hlaunched, Htrace, Hheap, Hstored, Hresults, Hshow.
  rewrite started_objects_cons, Hl in Hlaunched, Htrace.
  assert (heap st1 !! l = Some started) as Hl1.
  { rewrite Hheap, mark_started_lookup, Hl.
    rewrite bool_decide_eq_true_2 by left. done. }
  assert (st2 = register_result started result st1) as ->.
  { change st2 with (run l result st1). unfold run. by rewrite Hl1. }
  unfold register_result.
  split_and!.
  - done.
  - apply emitted_since_app. unfold events.
    case_match; cbn [trace schedule emit set_results];
      rewrite Htrace, !fmap_app, <- app_assoc; reflexivity.
  - case_match; cbn [results schedule emit set_results];
      apply ResultStore_get_add.
  - by case_match.
  - by case_match.
Qed.

Lemma dispatch_then_completion_witness :
  let st1 := run_tests all_files [0%nat] cached_a in
  let st2 :=
    resume (job_of all_files (0%nat, set_running 1 t1_10)).2 (Finished failed_t1) st1 in
  emitted_since cached_a st2
  = [ProcessStart (set_running 1 t1_10); ProcessExit (set_running 1 t1_10) failed_t1]
  ∧ snapshot "a_test.go" st2 = [set_running 1 t1_10; t2_20].
Proof.
  intros st1 st2.
  assert (heap cached_a !! 0%nat = Some t1_10) as Hl by reflexivity.
  destruct (dispatch_then_completion all_files 0%nat t1_10 failed_t1 cached_a Hl)
    as (_ & Hevents & _).
  split; [exact Hevents|]. vm_compute. reflexivity.
Defined.

(** ** Reconciliation, as a whole *)

Lemma recorded_tests_nil file_name st :
  recorded_tests file_name st = [] ↔ snapshot file_name st = [].
Proof.
  split.
  - intros Hnil.
    destruct (recorded_tests_dict_of file_name st) as (_ & _ & Hkeys).
    destruct (snapshot file_name st) as [|t prev]; [done|].
    specialize (Hkeys t (list_elem_of_here _ _)).
    rewrite Hnil in Hkeys. by apply elem_of_nil in Hkeys.
  - unfold snapshot, recorded_tests. intros Hnil.
    apply fmap_nil_inv in Hnil. by rewrite Hnil.
Qed.

Lemma update_positions_resets ed file_name callback st vim_patterns :
  available_patterns ed file_name = Some vim_patterns →
  update_positions ed file_name callback st
  = launch "update_positions"
      (CoRunner file_name vim_patterns (recorded_tests file_name st) callback)
      (emit_all (population_resets file_name (snapshot file_name st)) st).
Proof.
  unfold available_patterns, update_positions. intros Havailable.
  destruct (isfile ed file_name); [|done]. simpl.
  destruct (get_patterns ed file_name) as [|[|p ps]]; [done|done|]. simplify_eq.
  pose proof (recorded_tests_nil file_name st) as Hnil.
  destruct (recorded_tests file_name st) as [|entry entries].
  - rewrite (proj1 Hnil eq_refl). cbn [population_resets].
    by rewrite !emit_as_emit_all, !emit_all_app.
  - destruct (snapshot file_name st) as [|t prev].
    + by destruct Hnil as [_ Hnil]; specialize (Hnil eq_refl).
    + cbn [population_resets]. by rewrite emit_all_nil.
Qed.

(** The state one pass leaves, field by field. *)
Lemma reconcile_by_value ed file_name callback found is_running st vim_patterns :
  available_patterns ed file_name = Some vim_patterns →
  let d := recorded_tests file_name st in
  let st' := reconcile ed file_name callback found is_running st in
  let committed :=
    <[file_name := seq (length (heap st)) (length found)]> (stored_tests st) in
  ∃ remaining evs found',
    diff_loop (heap st) (results st) is_running d found = (remaining, evs, found')
    ∧ emitted_since st st'
      = population_resets file_name (snapshot file_name st)
          ++ StoreSortedIds file_name (Test.id <$> found)
          :: evs ++ clear_events (heap st) remaining ++ [PositionsUpdate]
    ∧ stored_tests st' = committed
    ∧ heap st' = heap st ++ found'
    ∧ snapshot file_name st' = found'
    ∧ results st' = results st
    ∧ process_manager st' = process_manager st
    ∧ show_on_run st' = show_on_run st
    ∧ stopped st' = stopped st
    ∧ launched st'
      = launched st ++ [("update_positions", CoRunner file_name vim_patterns d callback)]
    ∧ scheduled st' = scheduled st ++ callback_schedules callback.
Proof.
  intros Havailable d st' committed.
  pose proof (update_positions_resets ed file_name callback st vim_patterns Havailable)
    as Hlaunch.
  set (resets := population_resets file_name (snapshot file_name st)) in *.
  set (st1 := update_positions ed file_name callback st) in *.
  assert (st' = runner file_name d callback found is_running st1) as Hst'.
  { unfold st', reconcile. fold st1. unfold launched_since.
    replace (launched st1)
      with (launched st ++ [("update_positions",
                             CoRunner file_name vim_patterns d callback)])
      by (by rewrite Hlaunch).
    by rewrite drop_app_length. }
  destruct (runner_by_value file_name d callback found is_running st1)
    as (remaining & evs & found' & Hloop & Hrun).
  { rewrite Hlaunch. cbn [launch emit_all heap].
    eapply dict_of_allocated, recorded_tests_dict_of. }
  assert (heap st1 = heap st) as Hheap1 by (by rewrite Hlaunch).
  assert (results st1 = results st) as Hres1 by (by rewrite Hlaunch).
  rewrite Hheap1, Hres1 in Hloop. rewrite Hheap1 in Hrun.
  rewrite <- Hst' in Hrun.
  exists remaining, evs, found'.
  assert (snapshot file_name st' = found') as Hsnapshot.
  { destruct (runner_observed file_name callback found is_running st st1)
      as (remaining0 & evs0 & found0 & Hloop0 & _ & _ & _ & Hsnap0 & _);
      try (by rewrite Hlaunch).
    fold d in Hloop0, Hsnap0. rewrite <- Hst' in Hsnap0.
    rewrite Hloop in Hloop0. by simplify_eq. }
  rewrite Hrun at 1 2 3 5 6 7 8 9 10. rewrite Hlaunch.
  split_and!; try done.
  unfold emitted_since, events.
  cbn [schedule_all emit_all set_stored set_heap launch trace].
  rewrite <- app_assoc, fmap_app, drop_app_length.
  rewrite fmap_app, <- !list_fmap_compose. f_equal; apply list_fmap_id.
Qed.

Lemma visit_outcome_cases h rs is_running d t :
  let '(_, evs, t') := visit_outcome h rs is_running d t in
  (t' = t ∧ (evs = [] ∨ ∃ e, evs = [e] ∧ event_id e = Some (Test.id t)))
  ∨ (t' = set_running (is_running (Test.id t)) t ∧ evs = [ProcessMove t']).
Proof.
  unfold visit_outcome.
  repeat case_match; simplify_eq; try (left; split; [done|]; by left);
    try (left; split; [done|]; right; by eexists); by right.
Qed.

Lemma diff_loop_event_order h rs is_running found : ∀ d,
  omap event_id (diff_loop h rs is_running d found).1.2 `sublist_of` Test.id <$> found.
Proof.
  induction found as [|t found IH]; intros d; [done|].
  rewrite diff_loop_cons.
  pose proof (visit_outcome_cases h rs is_running d t) as Hcases.
  destruct (visit_outcome h rs is_running d t) as [[d1 evs1] t'].
  specialize (IH d1).
  destruct (diff_loop h rs is_running d1 found) as [[d2 evs2] rest'].
  simpl in *.
  destruct Hcases as [[_ [-> | (e & -> & He)]] | [-> ->]]; simpl.
  - by apply sublist_cons.
  - rewrite He. by apply sublist_skip.
  - by apply sublist_skip.
Qed.

Lemma diff_loop_popped h rs is_running found t : ∀ d,
  NoDup d.*1 → t ∈ found →
  dict_get (Test.id t) (diff_loop h rs is_running d found).1.1 = None.
Proof.
  induction found as [|t0 found IH]; intros d Hnd Hin.
  { by apply elem_of_nil in Hin. }
  rewrite diff_loop_cons.
  pose proof (visit_outcome_sub h rs is_running (λ _, True) d t0 Hnd) as Hsub.
  pose proof (visit_outcome_get_same h rs is_running d t0 Hnd) as Hsame.
  destruct (visit_outcome h rs is_running d t0) as [[d1 evs1] t'].
  destruct Hsub as (Hnd1 & _ & _); [by apply Forall_true|].
  simpl in Hnd1, Hsame.
  pose proof (diff_loop_sub h rs is_running (λ _, True) found d1 Hnd1) as Hrest.
  specialize (IH d1 Hnd1).
  destruct (diff_loop h rs is_running d1 found) as [[d2 evs2] rest'].
  destruct Hrest as (_ & _ & Hnone); [by apply Forall_true|].
  simpl in *.
  apply elem_of_cons in Hin as [-> | Hin]; [by apply Hnone | by apply IH].
Qed.

Lemma clear_events_objects h (d : Dict) :
  clear_events h d = ProcessClear <$> omap (λ p : string * loc, h !! p.2) d.
Proof.
  unfold clear_events. induction d as [|[k l] d IH]; [done|].
  cbn [omap list_omap]. simpl. destruct (h !! l); simpl; by rewrite IH.
Qed.

(** The objects still recorded after the loop are objects of the
    previous snapshot whose id was not discovered. *)
Lemma diff_loop_remaining h rs is_running found prev d :
  dict_of h prev d →
  Forall (λ t, t ∈ prev ∧ Test.id t ∉ Test.id <$> found)
         (omap (λ p : string * loc, h !! p.2) (diff_loop h rs is_running d found).1.1).
Proof.
  intros Hdict.
  assert (NoDup d.*1) as Hnd by apply Hdict.
  destruct Hdict as (_ & Hentries & _).
  destruct (diff_loop_sub h rs is_running _ found d Hnd Hentries)
    as (Hnd' & Hentries' & _).
  pose proof (λ t, diff_loop_popped h rs is_running found t d Hnd) as Hpopped.
  destruct (diff_loop h rs is_running d found) as [[remaining evs] found'].
  simpl in *.
  apply Forall_forall. intros t Hin.
  apply list_elem_of_omap in Hin as ([k l] & Hin & Hl). simpl in Hl.
  pose proof (proj1 (Forall_forall _ _) Hentries' _ Hin) as (t0 & Hl0 & Hid & Hprev).
  simpl in *. simplify_eq. split; [done|].
  intros Hfound. apply list_elem_of_fmap in Hfound as (t1 & Hid1 & Hfound).
  specialize (Hpopped t1 Hfound). rewrite <- Hid1 in Hpopped.
  apply dict_get_None in Hpopped. apply Hpopped.
  apply list_elem_of_fmap. by exists (Test.id t, l).
Qed.

(** X11. The notifications of one pass, in order: the three buffer variables
    are reset when, and only when, the file's snapshot was empty; then
    the sorted ids of the discovered tests are stored; then come the
    notifications about discovered tests (moved, replaced, new), at most
    one per discovered test and in discovery order; then the removals,
    each carrying a test of the previous snapshot whose id was not
    discovered; a single [UltestPositionsUpdate] closes the pass. *)
Theorem notification_layout ed file_name callback found is_running st :
  is_Some (available_patterns ed file_name) →
  let prev := snapshot file_name st in
  let st' := reconcile ed file_name callback found is_running st in
  ∃ loop removed,
    emitted_since st st'
    = population_resets file_name prev
        ++ StoreSortedIds file_name (Test.id <$> found)
        :: loop ++ (ProcessClear <$> removed) ++ [PositionsUpdate]
    ∧ Forall loop_event loop
    ∧ omap event_id loop `sublist_of` Test.id <$> found
    ∧ Forall (λ t, t ∈ prev ∧ Test.id t ∉ Test.id <$> found) removed.
Proof.
  intros [vim_patterns Havailable] prev st'.
  destruct (reconcile_by_value ed file_name callback found is_running st vim_patterns
              Havailable) as (remaining & evs & found' & Hloop & Hev & _).
  fold st' prev in Hev.
  set (d := recorded_tests file_name st) in *.
  pose proof (diff_loop_remaining (heap st) (results st) is_running found prev d
                (recorded_tests_dict_of file_name st)) as Hremaining.
  pose proof (diff_loop_kinds (heap st) (results st) is_running found d) as Hkinds.
  pose proof (diff_loop_event_order (heap st) (results st) is_running found d) as Horder.
  rewrite Hloop in Hremaining, Hkinds, Horder. simpl in Hremaining, Hkinds, Horder.
  exists evs, (omap (λ p : string * loc, heap st !! p.2) remaining).
  split_and!; try done.
  by rewrite <- clear_events_objects.
Qed.

Lemma notification_layout_witness :
  ∃ loop removed,
    emitted_since cached_a rescanned_a
    = StoreSortedIds "a_test.go" ["t1"; "t3"]
        :: loop ++ (ProcessClear <$> removed) ++ [PositionsUpdate]
    ∧ Forall loop_event loop
    ∧ omap event_id loop `sublist_of` ["t1"; "t3"]
    ∧ Forall (λ t, t ∈ [t1_10; t2_20] ∧ Test.id t ∉ ["t1"; "t3"]) removed.
Proof.
  assert (is_Some (available_patterns all_files "a_test.go")) as Havailable
    by (by eexists).
  destruct (notification_layout all_files "a_test.go" None [t1_15; t3_20] (λ _, 0)
              cached_a Havailable) as (loop & removed & Hlayout).
  exists loop, removed.
  change (snapshot "a_test.go" cached_a) with [t1_10; t2_20] in Hlayout.
  exact Hlayout.
Defined.

Lemma times_zero p evs : times p evs = 0%nat → Forall (λ e, p e = false) evs.
Proof.
  induction evs as [|e evs IH]; [done|].
  rewrite times_cons. destruct (p e) eqn:Hp; [done|].
  intros Hevs. constructor; [done|by apply IH].
Qed.

Lemma population_resets_ids file_name prev i :
  Forall (λ e, event_id e ≠ Some i) (population_resets file_name prev).
Proof. destruct prev; repeat constructor; done. Qed.

(** X12. A discovered test that was in the previous snapshot under the same
    id and at the same line is passed over in silence: no notification of
    the pass is about its id.  The committed snapshot holds the
    discovered object as the finder made it, so its [running] flag is
    the finder's, not the previous snapshot's and not the Run Engine's. *)
Theorem unchanged_test_is_silent ed file_name callback found is_running st old t :
  let prev := snapshot file_name st in
  let st' := reconcile ed file_name callback found is_running st in
  is_Some (available_patterns ed file_name) →
  NoDup (Test.id <$> prev) →
  NoDup (Test.id <$> found) →
  old ∈ prev → t ∈ found →
  Test.id old = Test.id t →
  Test.line old = Test.line t →
  Forall (λ e, event_id e ≠ Some (Test.id t)) (emitted_since st st')
  ∧ t ∈ snapshot file_name st'
  ∧ ∀ u, u ∈ snapshot file_name st' → Test.id u = Test.id t → u = t.
Proof.
  intros prev st' [vim_patterns Havailable] Hprev Hids Hold Hin Hid Hline.
  pose proof (recorded_tests_dict_of file_name st) as Hdict.
  destruct (reconcile_by_value ed file_name callback found is_running st vim_patterns
              Havailable)
    as (remaining & levs & found' & Hloop & Hev & _ & _ & Hsnap & _).
  fold st' prev in Hev, Hsnap, Hdict.
  set (d := recorded_tests file_name st) in *.
  assert (NoDup d.*1) as Hnd by apply Hdict.
  pose proof (diff_loop_remaining (heap st) (results st) is_running found prev d Hdict)
    as Hremaining.
  pose proof (diff_loop_ids (heap st) (results st) is_running found d) as Hids'.
  rewrite Hloop in Hremaining, Hids'. simpl in Hremaining, Hids'.
  (* the dictionary maps the id to the previous object *)
  assert (∃ l, dict_get (Test.id t) d = Some l ∧ heap st !! l = Some old)
    as (l & Hget & Hl).
  { assert (is_Some (dict_get (Test.id t) d)) as [l Hget].
    { apply dict_get_is_Some. rewrite <- Hid. by apply Hdict. }
    exists l. split; [done|].
    apply dict_get_Some_elem in Hget.
    destruct Hdict as (_ & Hentries & _).
    apply (proj1 (Forall_forall _ _) Hentries) in Hget as (t0 & Hl & Hid0 & Ht0).
    simpl in *. rewrite Hl. f_equal.
    apply (NoDup_fmap_eq Test.id prev); [done|done|done|congruence]. }
  pose proof (diff_loop_focus (heap st) (results st) is_running t found d
                Hnd Hids Hin) as Hfocus.
  rewrite Hloop in Hfocus. unfold visit_outcome in Hfocus.
  rewrite Hget, Hl, bool_decide_eq_false_2 in Hfocus by (intros Hne; by apply Hne).
  destruct Hfocus as (Htimes & _ & Hmem & _).
  rewrite Hev, Hsnap. split_and!; [|done|].
  - apply Forall_app. split; [apply population_resets_ids|].
    constructor; [done|].
    apply Forall_app. split; [|apply Forall_app; split].
    + specialize (Htimes (λ e, bool_decide (event_id e = Some (Test.id t)))).
      rewrite times_nil in Htimes.
      eapply Forall_impl; [apply times_zero, Htimes|].
      * intros e He. by apply bool_decide_eq_true_1 in He.
      * intros e He Heq. simpl in He. by rewrite bool_decide_eq_true_2 in He.
    + rewrite clear_events_objects. apply Forall_fmap.
      eapply Forall_impl; [exact Hremaining|].
      intros u [_ Hu] Heq. apply Hu. simpl in Heq. simplify_eq.
      apply list_elem_of_fmap. by exists t.
    + by repeat constructor.
  - intros u Hu Hidu.
    apply (NoDup_fmap_eq Test.id found'); [by rewrite Hids'|done|done|done].
Qed.

Lemma unchanged_test_is_silent_witness :
  let st' := reconcile all_files "a_test.go" None [t1_10; t3_20] (λ _, 1) running_a in
  set_running 1 t1_10 ∈ snapshot "a_test.go" running_a
  ∧ Forall (λ e, event_id e ≠ Some "t1") (emitted_since running_a st')
  ∧ t1_10 ∈ snapshot "a_test.go" st'.
Proof.
  intros st'.
  assert (is_Some (available_patterns all_files "a_test.go")) as Havailable
    by (by eexists).
  assert (snapshot "a_test.go" running_a = [set_running 1 t1_10; set_running 1 t2_20])
    as Hsnapshot by (vm_compute; reflexivity).
  assert (NoDup (Test.id <$> snapshot "a_test.go" running_a)) as Hprev
    by (rewrite Hsnapshot; by_evaluation).
  assert (NoDup (Test.id <$> [t1_10; t3_20])) as Hids by by_evaluation.
  assert (set_running 1 t1_10 ∈ snapshot "a_test.go" running_a) as Hold
    by (rewrite Hsnapshot; left).
  assert (t1_10 ∈ [t1_10; t3_20]) as Hin by left.
  destruct (unchanged_test_is_silent all_files "a_test.go" None [t1_10; t3_20] (λ _, 1)
              running_a (set_running 1 t1_10) t1_10 Havailable Hprev Hids Hold Hin
              eq_refl eq_refl) as (Hsilent & Hmem & _).
  exact (conj Hold (conj Hsilent Hmem)).
Defined.

Lemma objects_prefix (h h' : list Test.t) locs :
  Forall (λ l : loc, (l < length h)%nat) locs → objects (h ++ h') locs = objects h locs.
Proof.
  induction 1 as [|l locs Hl Hlocs IH]; [done|].
  unfold objects in *. cbn [omap list_omap].
  by rewrite IH, lookup_app_l.
Qed.

(** X13. What a pass over one file leaves alone: the Result Cache, the
    process manager, the stopped jobs, the list recorded for every other
    file and every object allocated before the pass (so the snapshot of
    every other file).  It launches the discovery task, and nothing
    else, under the name [update_positions], and defers exactly what the
    callback asks for. *)
Theorem reconcile_frame ed file_name callback found is_running st :
  is_Some (available_patterns ed file_name) →
  let st' := reconcile ed file_name callback found is_running st in
  results st' = results st
  ∧ process_manager st' = process_manager st
  ∧ stopped st' = stopped st
  ∧ heap st `prefix_of` heap st'
  ∧ (∀ other, other ≠ file_name →
       stored_get other st' = stored_get other st
       ∧ (Forall (λ l : loc, (l < length (heap st))%nat) (stored_get other st) →
          snapshot other st' = snapshot other st))
  ∧ (launched_since st st').*1 = ["update_positions"]
  ∧ Forall (λ c, is_runner c = true) (launched_since st st')
  ∧ scheduled_since st st' = callback_schedules callback.
Proof.
  intros [vim_patterns Havailable] st'.
  destruct (reconcile_by_value ed file_name callback found is_running st vim_patterns
              Havailable)
    as (remaining & evs & found' & _ & _ & Hstored & Hheap & _ & Hresults & Hpm & _
        & Hstopped & Hlaunched & Hscheduled).
  fold st' in Hstored, Hheap, Hresults, Hpm, Hstopped, Hlaunched, Hscheduled.
  assert (∀ other, other ≠ file_name → stored_get other st' = stored_get other st)
    as Hother.
  { intros other Hne. unfold stored_get. by rewrite Hstored, lookup_insert_ne. }
  split_and!; try done.
  - rewrite Hheap. by apply prefix_app_r.
  - intros other Hne. split; [by apply Hother|].
    intros Hallocated. unfold snapshot.
    by rewrite (Hother other Hne), Hheap, objects_prefix.
  - unfold launched_since. by rewrite Hlaunched, drop_app_length.
  - unfold launched_since. rewrite Hlaunched, drop_app_length. by repeat constructor.
  - unfold scheduled_since. by rewrite Hscheduled, drop_app_length.
Qed.

Lemma reconcile_frame_witness :
  let st' :=
    reconcile all_files "b_test.go" (Some (RunAllAfterUpdate "b_test.go")) [t3_20]
              (λ _, 0) cached_a_t3 in
  results st' = results cached_a_t3
  ∧ snapshot "a_test.go" st' = [t1_10; t2_20]
  ∧ scheduled_since cached_a_t3 st' = [SchRunAll "b_test.go" false].
Proof.
  intros st'.
  assert (is_Some (available_patterns all_files "b_test.go")) as Havailable
    by (by eexists).
  destruct (reconcile_frame all_files "b_test.go" (Some (RunAllAfterUpdate "b_test.go"))
              [t3_20] (λ _, 0) cached_a_t3 Havailable)
    as (Hresults & _ & _ & _ & Hother & _ & _ & Hscheduled).
  assert ("a_test.go" ≠ "b_test.go") as Hne by done.
  destruct (Hother "a_test.go" Hne) as [_ Hsnapshot].
  assert (Forall (λ l : loc, (l < length (heap cached_a_t3))%nat)
                 (stored_get "a_test.go" cached_a_t3)) as Hallocated
    by (vm_compute; repeat constructor).
  split_and!; [exact Hresults | exact (Hsnapshot Hallocated) | exact Hscheduled].
Defined.

Lemma diff_loop_shape h rs is_running found : ∀ d,
  let '(_, evs, found') := diff_loop h rs is_running d found in
  Forall2 (λ u t, u = t
                  ∨ (u = set_running (is_running (Test.id t)) t ∧ ProcessMove u ∈ evs))
          found' found.
Proof.
  induction found as [|t found IH]; intros d; [by constructor|].
  rewrite diff_loop_cons.
  pose proof (visit_outcome_cases h rs is_running d t) as Hcases.
  destruct (visit_outcome h rs is_running d t) as [[d1 evs1] t'].
  specialize (IH d1).
  destruct (diff_loop h rs is_running d1 found) as [[d2 evs2] rest'].
  constructor.
  - destruct Hcases as [[-> _] | [-> ->]]; [by left|].
    right. split; [done|]. apply elem_of_app. left. left.
  - eapply Forall2_impl; [exact IH|].
    intros u t0 [-> | [-> Hmove]]; [by left|].
    right. split; [done|]. apply elem_of_app. by right.
Qed.

(** X14. What a pass commits: the discovered tests, one for one and in
    discovery order, each as the finder made it except that a test
    notified as moved carries the Run Engine's [is_running] answer as its
    [running] flag.  The sorted ids stored in the editor are the ids of
    the committed snapshot, in its order. *)
Theorem committed_snapshot_shape ed file_name callback found is_running st :
  is_Some (available_patterns ed file_name) →
  let st' := reconcile ed file_name callback found is_running st in
  let evs := emitted_since st st' in
  Forall2 (λ u t, u = t
                  ∨ (u = set_running (is_running (Test.id t)) t ∧ ProcessMove u ∈ evs))
          (snapshot file_name st') found
  ∧ StoreSortedIds file_name (Test.id <$> snapshot file_name st') ∈ evs.
Proof.
  intros [vim_patterns Havailable] st' evs.
  destruct (reconcile_by_value ed file_name callback found is_running st vim_patterns
              Havailable)
    as (remaining & levs & found' & Hloop & Hev & _ & _ & Hsnap & _).
  fold st' evs in Hev, Hsnap.
  pose proof (diff_loop_shape (heap st) (results st) is_running found
                (recorded_tests file_name st)) as Hshape.
  pose proof (diff_loop_ids (heap st) (results st) is_running found
                (recorded_tests file_name st)) as Hids.
  rewrite Hloop in Hshape, Hids. simpl in Hids.
  rewrite Hsnap, Hev, Hids. split.
  - eapply Forall2_impl; [exact Hshape|].
    intros u t [-> | [-> Hmove]]; [by left|].
    right. split; [done|].
    apply elem_of_app. right. apply elem_of_cons. right. apply elem_of_app. by left.
  - apply elem_of_app. right. left.
Qed.

Lemma committed_snapshot_shape_witness :
  snapshot "a_test.go" rescanned_a = [t1_15; t3_20]
  ∧ StoreSortedIds "a_test.go" ["t1"; "t3"] ∈ emitted_since cached_a rescanned_a.
Proof.
  assert (is_Some (available_patterns all_files "a_test.go")) as Havailable
    by (by eexists).
  destruct (committed_snapshot_shape all_files "a_test.go" None [t1_15; t3_20] (λ _, 0)
              cached_a Havailable) as [Hshape Hsorted].
  fold rescanned_a in Hshape, Hsorted.
  apply Forall2_cons_inv_r in Hshape as (u1 & rest1 & Hu1 & Hshape & Hsnapshot).
  apply Forall2_cons_inv_r in Hshape as (u2 & rest2 & Hu2 & Hshape & ->).
  apply Forall2_nil_inv_r in Hshape as ->.
  rewrite Hsnapshot in Hsorted |- *.
  assert (u1 = t1_15) as -> by (by destruct Hu1 as [-> | [-> _]]).
  assert (u2 = t3_20) as -> by (by destruct Hu2 as [-> | [-> _]]).
  split; [reflexivity | exact Hsorted].
Defined.

Lemma diff_loop_unchanged h rs is_running found : ∀ d,
  NoDup d.*1 →
  NoDup (Test.id <$> found) →
  (∀ t, t ∈ found →
        ∃ l u, dict_get (Test.id t) d = Some l ∧ h !! l = Some u
               ∧ Test.line u = Test.line t) →
  (diff_loop h rs is_running d found).1.2 = []
  ∧ (diff_loop h rs is_running d found).2 = found.
Proof.
  induction found as [|t found IH]; intros d Hnd Hids Hsame; [done|].
  rewrite fmap_cons, NoDup_cons in Hids. destruct Hids as [Ht Hids].
  rewrite diff_loop_cons. unfold visit_outcome.
  destruct (Hsame t (list_elem_of_here _ _)) as (l & u & -> & -> & Hline).
  rewrite bool_decide_eq_false_2 by (intros Hne; by apply Hne).
  destruct (IH (dict_pop (Test.id t) d)) as [Hevs Hfound].
  - by apply dict_pop_NoDup.
  - done.
  - intros t2 Hin. destruct (Hsame t2) as (l2 & u2 & Hget & Hl2 & Hline2).
    { by right. }
    exists l2, u2. split_and!; try done.
    rewrite dict_get_pop_ne; [done|].
    intros Heq. apply Ht. apply list_elem_of_fmap. by exists t2.
  - destruct (diff_loop h rs is_running (dict_pop (Test.id t) d) found)
      as [[d2 evs2] rest'].
    simpl in *. by rewrite Hevs, Hfound.
Qed.

(** X15. Discovery is stable: when a second pass over the same file discovers
    the very tests the first one discovered (their ids unique), it makes
    no notification about any test; it only stores the sorted ids again
    and announces the update (and resets the buffer variables if nothing
    was discovered).  It commits the discovered tests as the finder made
    them: a [running] flag the first pass set on a moved test is gone. *)
Theorem rescan_is_quiet ed file_name callback callback' found is_running is_running' st :
  is_Some (available_patterns ed file_name) →
  NoDup (Test.id <$> found) →
  let st1 := reconcile ed file_name callback found is_running st in
  let st2 := reconcile ed file_name callback' found is_running' st1 in
  emitted_since st1 st2
  = population_resets file_name found
      ++ [StoreSortedIds file_name (Test.id <$> found); PositionsUpdate]
  ∧ snapshot file_name st2 = found.
Proof.
  intros [vim_patterns Havailable] Hids st1 st2.
  destruct (reconcile_by_value ed file_name callback found is_running st vim_patterns
              Havailable)
    as (remaining1 & evs1 & found1 & Hloop1 & _ & _ & _ & Hsnap1 & _).
  fold st1 in Hsnap1.
  pose proof (diff_loop_shape (heap st) (results st) is_running found
                (recorded_tests file_name st)) as Hshape.
  pose proof (diff_loop_ids (heap st) (results st) is_running found
                (recorded_tests file_name st)) as Hids1.
  rewrite Hloop1 in Hshape, Hids1. simpl in Hids1.
  destruct (reconcile_by_value ed file_name callback' found is_running' st1 vim_patterns
              Havailable)
    as (remaining2 & evs2 & found2 & Hloop2 & Hev & _ & _ & Hsnap2 & _).
  fold st2 in Hev, Hsnap2.
  pose proof (recorded_tests_dict_of file_name st1) as Hdict.
  rewrite Hsnap1 in Hdict, Hev.
  set (d := recorded_tests file_name st1) in *.
  assert (NoDup d.*1) as Hnd by apply Hdict.
  (* every discovered test is recorded, at the same line *)
  assert (∀ t, t ∈ found →
               ∃ l u, dict_get (Test.id t) d = Some l ∧ heap st1 !! l = Some u
                      ∧ Test.line u = Test.line t) as Hsame.
  { intros t Hin.
    assert (is_Some (dict_get (Test.id t) d)) as [l Hget].
    { apply dict_get_is_Some, (dict_of_keys _ _ _ _ Hdict). rewrite Hids1.
      apply list_elem_of_fmap. by exists t. }
    pose proof (dict_get_Some_elem _ _ _ Hget) as Helem.
    destruct Hdict as (_ & Hentries & _).
    apply (proj1 (Forall_forall _ _) Hentries) in Helem as (u & Hl & Hid & Hu).
    simpl in Hl, Hid.
    exists l, u. split_and!; try done.
    apply list_elem_of_lookup in Hu as [i Hi].
    destruct (Forall2_lookup_l _ _ _ _ _ Hshape Hi) as (t0 & Hi0 & Hu).
    apply list_elem_of_lookup_2 in Hi0.
    assert (Test.id u = Test.id t0 ∧ Test.line u = Test.line t0) as [Hid0 Hline0]
      by (by destruct Hu as [-> | [-> _]]).
    assert (t0 = t) as ->; [|done].
    apply (NoDup_fmap_eq Test.id found); [done|done|done|congruence]. }
  destruct (diff_loop_unchanged (heap st1) (results st1) is_running' found d
              Hnd Hids Hsame) as [Hevs2 Hfound2].
  (* and nothing else is recorded *)
  assert (remaining2 = []) as ->.
  { destruct (diff_loop_sub (heap st1) (results st1) is_running'
                (λ p, p.1 ∈ Test.id <$> found) found d Hnd) as (_ & Hkeys & _).
    { apply Forall_forall. intros [k l] Hin. simpl. rewrite <- Hids1.
      apply (dict_of_keys _ _ _ _ Hdict). apply list_elem_of_fmap. by exists (k, l). }
    pose proof (λ t, diff_loop_popped (heap st1) (results st1) is_running' found t d Hnd)
      as Hpopped.
    rewrite Hloop2 in Hkeys, Hpopped. simpl in Hkeys, Hpopped.
    destruct remaining2 as [|[k l] remaining2]; [done|].
    apply Forall_cons in Hkeys as [Hk _]. simpl in Hk.
    apply list_elem_of_fmap in Hk as (t & -> & Hin).
    specialize (Hpopped t Hin). apply dict_get_None in Hpopped.
    destruct Hpopped. rewrite fmap_cons. left. }
  rewrite Hloop2 in Hevs2, Hfound2. simpl in Hevs2, Hfound2. subst evs2 found2.
  split; [|done].
  rewrite Hev. apply Forall2_length in Hshape.
  by destruct found1, found.
Qed.

Lemma rescan_is_quiet_witness :
  let st1 := reconcile all_files "a_test.go" None [t1_15; t3_20] (λ _, 1) cached_a in
  let st2 := reconcile all_files "a_test.go" None [t1_15; t3_20] (λ _, 1) st1 in
  set_running 1 t1_15 ∈ snapshot "a_test.go" st1
  ∧ emitted_since st1 st2 = [StoreSortedIds "a_test.go" ["t1"; "t3"]; PositionsUpdate]
  ∧ snapshot "a_test.go" st2 = [t1_15; t3_20].
Proof.
  intros st1 st2.
  assert (is_Some (available_patterns all_files "a_test.go")) as Havailable
    by (by eexists).
  assert (NoDup (Test.id <$> [t1_15; t3_20])) as Hids by by_evaluation.
  destruct (rescan_is_quiet all_files "a_test.go" None None [t1_15; t3_20]
              (λ _, 1) (λ _, 1) cached_a Havailable Hids) as [Hquiet Hsnapshot].
  split_and!; [|exact Hquiet|exact Hsnapshot].
  vm_compute. left.
Defined.
